(** * The background service of the browser extension (src/background.ts)

    A shallow embedding of the message arbitration done by the background
    service worker: intake of wallet requests arriving on a port
    ([processMessage]), the three warning evaluations ([createAllowancePopup],
    [createNftListingPopup], [createHashSignaturePopup]), the routing of the
    popup's answer back to the waiting port (the [Browser.runtime.onMessage]
    listener, here [onMessage]) and the popup geometry ([getPopupPositions]).

    Conventions of the model.
    - JavaScript strings are Rocq strings, one character per code unit, for
      code units below 256; the texts that matter here (request ids, host
      names, hex digests) are ASCII.
    - JavaScript numbers that hold pixel counts, chain ids and line counts are
      integers ([Z]); their products with 0.5 and 0.2 are exact rationals
      ([Q]) and [Math.round] takes a rational to the nearest integer, a tie
      going up. A double rounds the same way for every integer a screen can
      produce: a fifth of an integer is never closer than a tenth to a tie.
      The sum [1 + Math.random()] of misc.ts is rounded as the addition of
      doubles rounds it ([double_one_plus]).
    - [messagePorts] is a plain object used as a dictionary from request ids
      to ports, and a request id is whatever string the page sends. Its own
      properties are a [gmap string Port]; the entry under "__proto__", a
      name that is never an own property, stands for its prototype once a
      port was made its prototype: line 71 with that id runs the prototype
      setter, a lookup with that id then finds the port, and [delete]
      removes nothing ([delete_own]). A name that the table inherits holds
      no port; the members of [Object.prototype] are found by a lookup
      ([messagePorts_get]) and make line 52 throw.
    - Every handler runs to completion on the single event loop; a handler is
      a function from the state of the service to a result, a new state and
      the list of calls it made to the outside world, oldest first. A
      listener that throws stops there: what it did before stays done. *)

From Stdlib Require Import ZArith QArith Qround Lia Ascii String.
From stdpp Require Import base option strings list gmap pretty.

Local Open Scope Z_scope.

(** ** Data model *)

(** A [Browser.Runtime.Port]: an open connection to a content script,
    identified by the number of the connection. *)
Definition Port : Type := nat.

(** [MessageResponse]: [{ requestId: string, data: boolean }]. *)
Record MessageResponse : Type := {
  response_requestId : string;
  response_data : bool;
}.

(** What [decodeApproval] and [decodePermit] find: [{ asset, spender }]. *)
Record Allowance : Type := {
  asset : string;
  spender : string;
}.

(** Modelled from the spec: lib/types.ts, lib/constants.ts and
    lib/utils/decode.ts are missing. The payload types they declare are kept
    abstract; only [typedData.primaryType] is read by background.ts. *)
Class Payloads : Type := {
  Transaction : Type;
  TypedData : Type;
  primaryType : TypedData → string;
  Item : Type;
}.

(** A decoded listing: only the two arrays of legs are read here. *)
Record Listing `{Payloads} : Type := {
  offer : list Item;
  consideration : list Item;
}.

(** The result of [decodeNftListing]: [{ platform, listing }], where
    [listing] is absent when nothing was decoded. *)
Record DecodedListing `{Payloads} : Type := {
  platform : string;
  listing : option Listing;
}.

(** Modelled from the spec: the decoders (lib/utils/decode.ts), the allow
    lists and the [WarningType] constants (lib/constants.ts) and
    [JSON.stringify] on a listing are taken as parameters. *)
Class Collaborators `{Payloads} : Type := {
  decodeApproval : Transaction → option Allowance;
  decodePermit : TypedData → option Allowance;
  decodeNftListing : TypedData → DecodedListing;
  JSON_stringify : Listing → string;
  AllowList_ALLOWANCE : list string;
  AllowList_NFT_LISTING : list string;
  AllowList_HASH_SIGNATURE : list string;
  WarningType_ALLOWANCE : string;
  WarningType_LISTING : string;
  WarningType_HASH : string;
}.

(** The fields that background.ts reads from every message, whatever its
    type: [message.requestId] and, in [message.data], [chainId], [hostname]
    and the optional [bypassed]. *)
Record Envelope : Type := {
  requestId : string;
  chainId : Z;
  hostname : string;
  bypassed : option bool;
}.

(** Modelled from the spec: the [Message] union of lib/types.ts is missing.
    It is discriminated by [message.data.type] (a transaction, a typed
    signature or an untyped signature request); a fourth case stands for any
    other shape that arrives at run time, whose [message.data.message] may
    be absent. *)
Inductive Message `{Payloads} : Type :=
  | TransactionMessage (e : Envelope) (transaction : Transaction)
  | TypedSignatureMessage (e : Envelope) (typedData : TypedData)
  | UntypedSignatureMessage (e : Envelope) (message : string)
  | UnrecognisedMessage (e : Envelope) (type : string) (message : option string).

Section Messages.
Context `{Payloads}.

Definition envelope (m : Message) : Envelope :=
  match m with
  | TransactionMessage e _ => e
  | TypedSignatureMessage e _ => e
  | UntypedSignatureMessage e _ => e
  | UnrecognisedMessage e _ _ => e
  end.

(** [message.data.message], [None] where the field is absent. *)
Definition data_message (m : Message) : option string :=
  match m with
  | UntypedSignatureMessage _ s => Some s
  | UnrecognisedMessage _ _ o => o
  | _ => None
  end.

(** Modelled from the spec: the type guards of lib/types.ts test
    [message.data.type]. *)
Definition isTransactionMessage (m : Message) : bool :=
  match m with TransactionMessage _ _ => true | _ => false end.

Definition isTypedSignatureMessage (m : Message) : bool :=
  match m with TypedSignatureMessage _ _ => true | _ => false end.
End Messages.

(** ** JavaScript values and strings *)

(** Truthiness of an optional boolean ([bypassed?: boolean]). *)
Definition truthy (b : option bool) : bool := default false b.

(** [String(b)] on an optional boolean. *)
Definition String_of_bool (b : option bool) : string :=
  match b with
  | Some true => "true"
  | Some false => "false"
  | None => "undefined"
  end.

(** [String(v)] on an optional string. *)
Definition String_of_message (v : option string) : string :=
  default "undefined" v.

(** [String(n)] on an integer. *)
Definition String_of_number (n : Z) : string := pretty n.

(** [s.replace(/0x/, '')]: the leftmost occurrence of "0x" is removed,
    wherever it stands; a string without one is unchanged. *)
Fixpoint replace_0x (s : string) : string :=
  match s with
  | String c (String c' rest' as rest) =>
      if Ascii.eqb c "0" && Ascii.eqb c' "x" then rest'
      else String c (replace_0x rest)
  | _ => s
  end.

(** [list.includes(x)] on an array of strings. *)
Definition includes (l : list string) (x : string) : bool :=
  bool_decide (x ∈ l).

(** ** The state of the service and its effects *)

(** The two module-level tables of background.ts (lines 31-32) and the
    extension's local storage, which holds the settings. *)
Record State : Type := {
  messagePorts : gmap string Port;
  approvedMessages : list string;
  storage_local : gmap string bool;
}.

(** Calls to the outside world. [Track name id] is a telemetry event about
    request [id] (its other properties are left out); [ConfirmationPopup] is
    a call of [createConfirmationPopup]. *)
Inductive Event : Type :=
  | PostMessage (port : Port) (response : MessageResponse)
  | Track (eventName : string) (id : string)
  | ConfirmationPopup (queryString : string) (contentLines : Z) (bypassed : option bool).

Definition M (A : Type) : Type := State → A * State * list Event.

Definition ret {A} (a : A) : M A := λ s, (a, s, []).

Definition bind {A B} (m : M A) (k : A → M B) : M B :=
  λ s, let '(a, s1, l1) := m s in
       let '(b, s2, l2) := k a s1 in
       (b, s2, l1 ++ l2).

Notation "'let*' x := m 'in' k" := (bind m (λ x, k))
  (at level 10, x name, m at level 100, k at level 200).
Notation "m ;; k" := (bind m (λ _, k))
  (at level 100, k at level 200, right associativity).

Definition gets {A} (f : State → A) : M A := λ s, (f s, s, []).
Definition modify (f : State → State) : M unit := λ s, (tt, f s, []).
Definition emit (e : Event) : M unit := λ s, (tt, s, [e]).

Definition result {A} (r : A * State * list Event) : A := r.1.1.
Definition state_after {A} (r : A * State * list Event) : State := r.1.2.
Definition events {A} (r : A * State * list Event) : list Event := r.2.

(** Modelled from the spec: lib/utils/storage.ts is missing.
    [getStorage('local', key, fallback)] answers the value stored under
    [key], or [fallback] when there is none; the settings are booleans. *)
Definition getStorage (key : string) (fallback : bool) : M bool :=
  gets (λ s, default fallback (storage_local s !! key)).

(** [track(eventName, { requestId, ... })]. *)
Definition track (eventName : string) (id : string) : M unit :=
  emit (Track eventName id).

(** [port.postMessage(response)]. *)
Definition postMessage (port : Port) (response : MessageResponse) : M unit :=
  emit (PostMessage port response).

(** [approvedMessages.push(id)]. *)
Definition approvedMessages_push (id : string) : M unit :=
  modify (λ s, {| messagePorts := messagePorts s;
                  approvedMessages := approvedMessages s ++ [id];
                  storage_local := storage_local s |}).

(** [messagePorts[id] = port]. *)
Definition messagePorts_set (id : string) (port : Port) : M unit :=
  modify (λ s, {| messagePorts := <[id := port]> (messagePorts s);
                  approvedMessages := approvedMessages s;
                  storage_local := storage_local s |}).

(** [delete table[id]] on a plain object removes the own property [id].
    The name "__proto__" is not an own property of the table: an assignment
    to it goes to the prototype setter, and the [delete] removes nothing. *)
Definition delete_own (id : string) (ports : gmap string Port)
    : gmap string Port :=
  if bool_decide (id = "__proto__") then ports else delete id ports.

(** [delete messagePorts[id]], line 53. *)
Definition messagePorts_delete (id : string) : M unit :=
  modify (λ s, {| messagePorts := delete_own id (messagePorts s);
                  approvedMessages := approvedMessages s;
                  storage_local := storage_local s |}).

(** What [messagePorts[id]] evaluates to: a port, another value (truthy and
    without a [postMessage] method) or [undefined]. *)
Inductive Lookup : Type :=
  | FoundPort (port : Port)
  | FoundOther
  | FoundNothing.

(** The names every plain object inherits from [Object.prototype]. *)
Definition Object_prototype_names : list string :=
  ["__proto__"; "constructor"; "hasOwnProperty"; "isPrototypeOf";
   "propertyIsEnumerable"; "toLocaleString"; "toString"; "valueOf";
   "__defineGetter__"; "__defineSetter__"; "__lookupGetter__";
   "__lookupSetter__"].

(** [messagePorts[id]], line 43: the port stored under [id] (for "__proto__"
    the port that was made the prototype); otherwise, for a name of
    [Object.prototype], the inherited member, which is truthy and is not a
    port (for "__proto__" it is [Object.prototype] itself); otherwise
    [undefined]. What else the table inherits once a port is its prototype
    is not told apart from [undefined]: it is not a port, and whether line
    51 skips it or line 52 throws on it, nothing more is done. *)
Definition messagePorts_get (id : string) (ports : gmap string Port) : Lookup :=
  match ports !! id with
  | Some port => FoundPort port
  | None => if includes Object_prototype_names id then FoundOther else FoundNothing
  end.

(** Truthiness of what a lookup found. *)
Definition found (responsePort : Lookup) : bool :=
  match responsePort with
  | FoundNothing => false
  | _ => true
  end.

(** A listener can throw. Its result is [None] then: it stops at the throw
    and what it did before stays done. *)
Definition L (A : Type) : Type := State → option A * State * list Event.

Definition lift {A} (m : M A) : L A :=
  λ s, let '(a, s1, l) := m s in (Some a, s1, l).

Definition throw {A} : L A := λ s, (None, s, []).

Definition bind_L {A B} (m : L A) (k : A → L B) : L B :=
  λ s, let '(a, s1, l1) := m s in
       match a with
       | Some a => let '(b, s2, l2) := k a s1 in (b, s2, l1 ++ l2)
       | None => (None, s1, l1)
       end.

Notation "'try*' x := m 'in' k" := (bind_L m (λ x, k))
  (at level 10, x name, m at level 100, k at level 200).
Notation "m ;;; k" := (bind_L m (λ _, k))
  (at level 100, k at level 200, right associativity).

(** The browser calls the listener; an error the listener throws is
    reported and the service carries on with the next event. *)
Definition dispatch (listener : L unit) : M unit :=
  λ s, let '(_, s1, l) := listener s in (tt, s1, l).

(** [responsePort.postMessage(response)], line 52: a [TypeError] when what
    was found is not a port. *)
Definition responsePort_postMessage (responsePort : Lookup)
    (response : MessageResponse) : L unit :=
  match responsePort with
  | FoundPort port => lift (postMessage port response)
  | _ => throw
  end.

(** ** [URLSearchParams]

    [new URLSearchParams(record).toString()] is the
    application/x-www-form-urlencoded serialisation of the record's entries
    in insertion order: names and values are UTF-8 encoded, a space becomes
    [+], the bytes of [*-._0-9A-Za-z] stand for themselves and every other
    byte is written [%XX]. *)

Definition hex_digit (n : N) : ascii :=
  default "0"%char (String.get (N.to_nat n) "0123456789ABCDEF").

Definition percent_byte (b : N) : string :=
  String "%" (String (hex_digit (b / 16)) (String (hex_digit (b mod 16)) EmptyString)).

Definition form_safe (b : N) : bool :=
  ((b =? 42) || (b =? 45) || (b =? 46) || (b =? 95)
   || ((48 <=? b) && (b <=? 57))
   || ((65 <=? b) && (b <=? 90))
   || ((97 <=? b) && (b <=? 122)))%N.

Definition urlencode_byte (b : N) : string :=
  if (b =? 32)%N then "+"
  else if form_safe b then String (ascii_of_N b) EmptyString
  else percent_byte b.

(** The UTF-8 bytes of a code unit below 256. *)
Definition utf8 (c : ascii) : list N :=
  let n := N_of_ascii c in
  if (n <? 128)%N then [n] else [192 + n / 64; 128 + n mod 64]%N.

Fixpoint urlencode (s : string) : string :=
  match s with
  | EmptyString => EmptyString
  | String c rest =>
      foldr (λ b acc, urlencode_byte b +:+ acc) (urlencode rest) (utf8 c)
  end.

Definition URLSearchParams_toString (params : list (string * string)) : string :=
  String.concat "&" (map (λ p, urlencode p.1 +:+ "=" +:+ urlencode p.2) params).

(** The names of the parameters of a query string, as the popup page reads
    them back with [new URLSearchParams(location.search)]: the string is cut
    at every [&], empty pieces are skipped, and a piece's name is what
    precedes its first [=]. Names are left in their encoded form, which for
    a name made of letters and digits is the name itself. *)
Fixpoint split_on (sep : ascii) (s : string) : list string :=
  match s with
  | EmptyString => [EmptyString]
  | String c rest =>
      if Ascii.eqb c sep then EmptyString :: split_on sep rest
      else match split_on sep rest with
           | piece :: pieces => String c piece :: pieces
           | [] => [String c EmptyString]
           end
  end.

Definition name_of_piece (piece : string) : string :=
  default EmptyString (head (split_on "=" piece)).

Definition query_names (queryString : string) : list string :=
  map name_of_piece
      (filter (λ piece, piece ≠ EmptyString) (split_on "&" queryString)).

(** ** The popup (lines 172-197) *)

(** The geometry fields of a [Browser.Windows.Window]. *)
Record Window : Type := {
  left : Z;
  top : Z;
  width : Z;
  height : Z;
}.

(** The object [{ width, height, left, top }] that [getPopupPositions]
    returns. *)
Record Positions : Type := {
  popup_width : Z;
  popup_height : Z;
  popup_left : Z;
  popup_top : Z;
}.

(** [Math.round(x)]: the integer nearest to [x], a tie going up. *)
Definition Math_round (x : Q) : Z := Qfloor (x + (1 # 2)).

Definition getPopupPositions (window : Window) (contentLines : Z)
    (bypassed : option bool) : Positions :=
  let width_ := 480 in
  let height_ := 320 + contentLines * 24 + (if truthy bypassed then 24 else 0) in
  let left_ :=
    left window + Math_round (inject_Z (width window - width_) * (5 # 10)) in
  let top_ :=
    top window + Math_round (inject_Z (height window - height_) * (2 # 10)) in
  {| popup_width := width_; popup_height := height_;
     popup_left := left_; popup_top := top_ |}.

(** The two calls [createConfirmationPopup] makes to the browser once the
    current window is known. *)
Inductive BrowserCall : Type :=
  | WindowsCreate (url : string) (type : string) (positions : Positions)
  | WindowsUpdate (positions : Positions).

Definition createConfirmationPopup (currentWindow : Window)
    (queryString : string) (contentLines : Z) (bypassed : option bool)
    : list BrowserCall :=
  let positions := getPopupPositions currentWindow contentLines bypassed in
  [WindowsCreate ("confirm.html?" +:+ queryString) "popup" positions;
   WindowsUpdate positions].

(** ** The handlers (lines 42-170) *)

Section Background.
Context `{Collaborators}.

(** [createAllowancePopup], lines 85-115. Its argument is a transaction
    message or a typed signature message: the envelope and either
    [message.data.transaction] or [message.data.typedData]. *)
Definition createAllowancePopup (e : Envelope)
    (subject : Transaction + TypedData) : M bool :=
  let* warnOnApproval := getStorage "settings:warnOnApproval" true in
  if negb warnOnApproval then ret false else
  if includes AllowList_ALLOWANCE (hostname e) then ret false else
  let* approved := gets approvedMessages in
  if includes approved (requestId e) then ret false else
  let allowance :=
    match subject with
    | inl transaction => decodeApproval transaction
    | inr typedData => decodePermit typedData
    end in
  match allowance with
  | None => ret false
  | Some allowance =>
      let queryString := URLSearchParams_toString
        [("type", WarningType_ALLOWANCE);
         ("requestId", requestId e);
         ("asset", asset allowance);
         ("spender", spender allowance);
         ("chainId", String_of_number (chainId e));
         ("bypassed", String_of_bool (bypassed e));
         ("hostname", hostname e)] in
      emit (ConfirmationPopup queryString 2 (bypassed e)) ;;
      track "Allowance requested" (requestId e) ;;
      ret true
  end.

(** [createNftListingPopup], lines 117-144. *)
Definition createNftListingPopup (e : Envelope) (typedData : TypedData)
    : M bool :=
  let* warnOnListing := getStorage "settings:warnOnListing" true in
  if negb warnOnListing then ret false else
  if includes AllowList_NFT_LISTING (hostname e) then ret false else
  let* approved := gets approvedMessages in
  if includes approved (requestId e) then ret false else
  let decoded := decodeNftListing typedData in
  match listing decoded with
  | None => ret false
  | Some listing =>
      let queryString := URLSearchParams_toString
        [("type", WarningType_LISTING);
         ("requestId", requestId e);
         ("listing", JSON_stringify listing);
         ("platform", platform decoded);
         ("chainId", String_of_number (chainId e));
         ("bypassed", String_of_bool (bypassed e));
         ("hostname", hostname e)] in
      emit (ConfirmationPopup queryString
              (Z.of_nat (length (offer listing) + length (consideration listing)))
              (bypassed e)) ;;
      track "NFT listing requested" (requestId e) ;;
      ret true
  end.

(** [createHashSignaturePopup], lines 146-170; [signMessage] is
    [message.data.message]. *)
Definition createHashSignaturePopup (e : Envelope)
    (signMessage : option string) : M bool :=
  let* warnOnHashSignatures := getStorage "settings:warnOnHashSignatures" true in
  if negb warnOnHashSignatures then ret false else
  if includes AllowList_HASH_SIGNATURE (hostname e) then ret false else
  let* approved := gets approvedMessages in
  if includes approved (requestId e) then ret false else
  if negb (String.length (replace_0x (String_of_message signMessage)) =? 64)%nat
  then ret false else
  let queryString := URLSearchParams_toString
    [("type", WarningType_HASH);
     ("requestId", requestId e);
     ("bypassed", String_of_bool (bypassed e));
     ("hostname", hostname e)] in
  emit (ConfirmationPopup queryString 0 (bypassed e)) ;;
  track "Hash signature requested" (requestId e) ;;
  ret true.

(** [createPopup], lines 74-83. *)
Definition createPopup (message : Message) : M bool :=
  match message with
  | TransactionMessage e transaction =>
      createAllowancePopup e (inl transaction)
  | TypedSignatureMessage e typedData =>
      let mayBePermit := String.eqb (primaryType typedData) "Permit" in
      if mayBePermit then createAllowancePopup e (inr typedData)
      else createNftListingPopup e typedData
  | _ => createHashSignaturePopup (envelope message) (data_message message)
  end.

(** [processMessage], lines 58-72. *)
Definition processMessage (message : Message) (remotePort : Port) : M unit :=
  let* popupCreated := createPopup message in
  if truthy (bypassed (envelope message)) then ret tt else
  if negb popupCreated then
    postMessage remotePort
      {| response_requestId := requestId (envelope message);
         response_data := true |}
  else
    messagePorts_set (requestId (envelope message)) remotePort.

(** The [Browser.runtime.onMessage] listener, lines 42-56. *)
Definition onMessage (response : MessageResponse) : M unit :=
  dispatch (
    try* responsePort :=
      lift (gets (λ s, messagePorts_get (response_requestId response)
                         (messagePorts s))) in
    lift (track "Responded to request" (response_requestId response)) ;;;
    lift (if response_data response
          then approvedMessages_push (response_requestId response)
          else ret tt) ;;;
    if found responsePort then
      responsePort_postMessage responsePort response ;;;
      lift (messagePorts_delete (response_requestId response))
    else lift (ret tt)).

(** What the service receives: a request on a port (line 36) or the answer
    of a popup (line 42). *)
Inductive Input : Type :=
  | Incoming (message : Message) (remotePort : Port)
  | Answer (response : MessageResponse).

Definition handle (input : Input) : M unit :=
  match input with
  | Incoming message remotePort => processMessage message remotePort
  | Answer response => onMessage response
  end.

(** The event loop: the inputs are handled one after the other. *)
Fixpoint handleAll (inputs : list Input) : M unit :=
  match inputs with
  | [] => ret tt
  | input :: inputs => handle input ;; handleAll inputs
  end.

(** Whether an input is a request carrying the id [id]. *)
Definition requests (id : string) (input : Input) : Prop :=
  match input with
  | Incoming message _ => requestId (envelope message) = id
  | Answer _ => False
  end.
End Background.

(** ** What a run shows to the outside *)

(** The messages posted on ports, in order. *)
Definition deliveries (l : list Event) : list (Port * MessageResponse) :=
  omap (λ ev, match ev with PostMessage p r => Some (p, r) | _ => None end) l.

(** The messages posted about request [id]. *)
Definition deliveries_for (id : string) (l : list Event)
    : list (Port * MessageResponse) :=
  filter (λ d, response_requestId d.2 = id) (deliveries l).

(** The popups raised: query string, content lines and bypass flag. *)
Definition popups (l : list Event) : list (string * Z * option bool) :=
  omap (λ ev, match ev with
              | ConfirmationPopup q n b => Some (q, n, b)
              | _ => None
              end) l.

(** The names of the telemetry events sent. *)
Definition tracked (l : list Event) : list string :=
  omap (λ ev, match ev with Track name _ => Some name | _ => None end) l.

(** The same envelope with another bypass flag. *)
Definition with_bypassed (b : option bool) (e : Envelope) : Envelope :=
  {| requestId := requestId e; chainId := chainId e;
     hostname := hostname e; bypassed := b |}.

(** The same message with another bypass flag. *)
Definition message_with_bypassed `{Payloads} (b : option bool) (m : Message)
    : Message :=
  match m with
  | TransactionMessage e t => TransactionMessage (with_bypassed b e) t
  | TypedSignatureMessage e t => TypedSignatureMessage (with_bypassed b e) t
  | UntypedSignatureMessage e t => UntypedSignatureMessage (with_bypassed b e) t
  | UnrecognisedMessage e ty t => UnrecognisedMessage (with_bypassed b e) ty t
  end.

(** The specification's reading of the hash heuristic: the message with an
    optional "0x" prefix stripped. *)
Definition strip_0x_prefix (s : string) : string :=
  match s with
  | String c (String c' rest) =>
      if Ascii.eqb c "0" && Ascii.eqb c' "x" then rest else s
  | _ => s
  end.

(** Whether character [c] occurs in [s]. *)
Fixpoint occurs (c : ascii) (s : string) : bool :=
  match s with
  | EmptyString => false
  | String c' rest => Ascii.eqb c' c || occurs c rest
  end.

(** The gating common to the three evaluations, for the hash warning: the
    setting is on, the host is not allow-listed and the request has not been
    approved. *)
Definition hash_gate_open `{Collaborators} (e : Envelope) (s : State) : Prop :=
  default true (storage_local s !! "settings:warnOnHashSignatures") = true
  ∧ (hostname e ∉ AllowList_HASH_SIGNATURE)
  ∧ (requestId e ∉ approvedMessages s).

Section Queries.
Context `{Collaborators}.

(** The query strings the three evaluations build. *)
Definition allowance_query (e : Envelope) (allowance : Allowance) : string :=
  URLSearchParams_toString
    [("type", WarningType_ALLOWANCE);
     ("requestId", requestId e);
     ("asset", asset allowance);
     ("spender", spender allowance);
     ("chainId", String_of_number (chainId e));
     ("bypassed", String_of_bool (bypassed e));
     ("hostname", hostname e)].

Definition listing_query (e : Envelope) (platform : string) (listing : Listing)
    : string :=
  URLSearchParams_toString
    [("type", WarningType_LISTING);
     ("requestId", requestId e);
     ("listing", JSON_stringify listing);
     ("platform", platform);
     ("chainId", String_of_number (chainId e));
     ("bypassed", String_of_bool (bypassed e));
     ("hostname", hostname e)].

Definition hash_query (e : Envelope) : string :=
  URLSearchParams_toString
    [("type", WarningType_HASH);
     ("requestId", requestId e);
     ("bypassed", String_of_bool (bypassed e));
     ("hostname", hostname e)].

End Queries.

(** ** A concrete set of collaborators

    Used to run the handlers on examples: a transaction is its call data, a
    typed-data document is its primary type with the legs of the order it
    carries, and the decoders recognise an ERC-20 [approve] by its selector,
    every typed-data document as a permit and every document with a leg as a
    listing. *)

Definition demo_payloads : Payloads :=
  {| Transaction := string;
     TypedData := string * (list string * list string);
     primaryType := fst;
     Item := string |}.

Definition demo_collaborators : @Collaborators demo_payloads :=
  {| decodeApproval := λ transaction : @Transaction demo_payloads,
       if String.prefix "0x095ea7b3" transaction
       then Some {| asset := "0xA0b8"; spender := "0x1111" |}
       else None;
     decodePermit := λ typedData : @TypedData demo_payloads,
       Some {| asset := "0xA0b8"; spender := "0x1111" |};
     decodeNftListing := λ typedData : @TypedData demo_payloads,
       {| platform := "OpenSea";
          listing :=
            match typedData.2 with
            | ([], []) => None
            | (o, c) => Some (@Build_Listing demo_payloads o c)
            end |};
     JSON_stringify := λ _, "{}";
     AllowList_ALLOWANCE := ["revoke.cash"];
     AllowList_NFT_LISTING := ["opensea.io"];
     AllowList_HASH_SIGNATURE := ["opensea.io"; "unstoppabledomains.com"];
     WarningType_ALLOWANCE := "allowance";
     WarningType_LISTING := "listing";
     WarningType_HASH := "hash" |}.

(** The state of a freshly started service: nothing registered, nothing
    approved, no setting stored (every warning is on by default). *)
Definition initial_state : State :=
  {| messagePorts := ∅; approvedMessages := []; storage_local := ∅ |}.

(** Sixty-four hexadecimal digits. *)
Definition hash64 : string :=
  "aaaaaaaaaaaaaaaaaaaaaaaaaaaaaaaaaaaaaaaaaaaaaaaaaaaaaaaaaaaaaaaa".

Definition demo_envelope (id : string) (b : option bool) : Envelope :=
  {| requestId := id; chainId := 1; hostname := "example.org"; bypassed := b |}.

(** The same service after the user approved request "r1". *)
Definition approved_state : State :=
  {| messagePorts := ∅; approvedMessages := ["r1"]; storage_local := ∅ |}.

(** The same service while port 7 waits for the answer to request "r1". *)
Definition waiting_state : State :=
  {| messagePorts := {["r1" := 7%nat]}; approvedMessages := [];
     storage_local := ∅ |}.

(** An ERC-20 [approve] sent as a transaction. *)
Definition demo_approve (b : option bool) : @Message demo_payloads :=
  @TransactionMessage demo_payloads (demo_envelope "r1" b)
    "0x095ea7b3000000000000".

(** The same approval, bypassed, under an id that has a space, an ampersand
    and an equals sign. *)
Definition demo_odd_approve : @Message demo_payloads :=
  @TransactionMessage demo_payloads (demo_envelope "a b&c=d" (Some true))
    "0x095ea7b3000000000000".

(** A typed-data document of the given primary type that carries two offer
    legs and three consideration legs. *)
Definition demo_typed (primary : string) (b : option bool)
    : @Message demo_payloads :=
  @TypedSignatureMessage demo_payloads (demo_envelope "r1" b)
    (primary, (["nft 1"; "nft 2"], ["eth"; "fee"; "royalty"])).

(** A request to sign a digest given with its "0x" prefix. *)
Definition demo_hash (b : option bool) : @Message demo_payloads :=
  @UntypedSignatureMessage demo_payloads (demo_envelope "r1" b)
    ("0x" +:+ hash64).

(** The same request sent under the id "__proto__". *)
Definition demo_proto_hash : @Message demo_payloads :=
  @UntypedSignatureMessage demo_payloads (demo_envelope "__proto__" None)
    ("0x" +:+ hash64).

(** A request to sign a readable sentence of 66 characters that names an
    account. *)
Definition demo_sentence : string :=
  "Login to example.org as 0xde0B295669a9FD93d5F28D9Ec85E40f4cb697BAe".

(** A readable text of 64 characters that names a short hexadecimal code. *)
Definition demo_code_text : string :=
  "Please confirm the order with code 0x7f3a on example.org today!!".

(** ** Further observations *)

(** Whether "0x" occurs somewhere in [s]. *)
Fixpoint has_0x (s : string) : bool :=
  match s with
  | String c (String c' _ as rest) =>
      (Ascii.eqb c "0" && Ascii.eqb c' "x") || has_0x rest
  | _ => false
  end.

(** The entries of a query string, read back like [query_names]: a piece's
    value is what follows its first [=]. Names and values are left in their
    encoded form. *)
Definition entry_of_piece (piece : string) : string * string :=
  match split_on "=" piece with
  | name :: value => (name, String.concat "=" value)
  | [] => (EmptyString, EmptyString)
  end.

Definition query_entries (queryString : string) : list (string * string) :=
  map entry_of_piece
      (filter (λ piece, piece ≠ EmptyString) (split_on "&" queryString)).

(** Whether every character of [s] is one that the serialisation of a query
    string leaves as it is. *)
Fixpoint form_safe_string (s : string) : bool :=
  match s with
  | EmptyString => true
  | String c rest => form_safe (N_of_ascii c) && form_safe_string rest
  end.

(** The value of a hexadecimal digit, in either case. *)
Definition hex_digit_value (c : ascii) : option N :=
  let n := N_of_ascii c in
  (if (48 <=? n) && (n <=? 57) then Some (n - 48)
   else if (65 <=? n) && (n <=? 70) then Some (n - 55)
   else if (97 <=? n) && (n <=? 102) then Some (n - 87)
   else None)%N.

(** The bytes a serialised name or value stands for, as
    [new URLSearchParams(queryString)] reads them: [+] is a space, [%] with
    two hexadecimal digits is the byte they write, and every other
    character is its own byte. *)
Fixpoint percent_decode (s : string) : list N :=
  match s with
  | EmptyString => []
  | String c rest =>
      if Ascii.eqb c "+" then 32%N :: percent_decode rest
      else if Ascii.eqb c "%" then
        match rest with
        | String h1 (String h2 rest') =>
            match hex_digit_value h1, hex_digit_value h2 with
            | Some v1, Some v2 => (16 * v1 + v2)%N :: percent_decode rest'
            | _, _ => 37%N :: percent_decode rest
            end
        | _ => 37%N :: percent_decode rest
        end
      else N_of_ascii c :: percent_decode rest
  end.

(** The bytes read as UTF-8. Only the code units below 256 are told apart:
    a byte below 128 is itself, and a lead byte C2 or C3 with its
    continuation byte is a code unit from 128 to 255. Anything else, which
    the serialisation of a string of such code units never writes, is shown
    as a question mark. *)
Fixpoint utf8_decode (bytes : list N) : string :=
  match bytes with
  | [] => EmptyString
  | b :: rest =>
      if (b <? 128)%N then String (ascii_of_N b) (utf8_decode rest)
      else
        match rest with
        | b' :: rest' =>
            if ((194 <=? b) && (b <=? 195) && (128 <=? b') && (b' <=? 191))%N
            then String (ascii_of_N ((b - 192) * 64 + (b' - 128))) (utf8_decode rest')
            else String "?" (utf8_decode rest)
        | [] => String "?" EmptyString
        end
  end.

Definition urldecode (s : string) : string := utf8_decode (percent_decode s).

(** The entries of [new URLSearchParams(queryString)], decoded. *)
Definition URLSearchParams_parse (queryString : string) : list (string * string) :=
  map (λ entry, (urldecode entry.1, urldecode entry.2)) (query_entries queryString).

(** [new URLSearchParams(queryString).getAll(name)]. *)
Definition URLSearchParams_getAll (name : string) (queryString : string)
    : list string :=
  map snd (filter (λ entry : string * string, entry.1 = name)
             (URLSearchParams_parse queryString)).

(** The ids of the approving answers among the inputs, in order of arrival. *)
Definition approvals `{Payloads} (inputs : list Input) : list string :=
  omap (λ input, match input with
                 | Answer response =>
                     if response_data response
                     then Some (response_requestId response)
                     else None
                 | Incoming _ _ => None
                 end) inputs.

(** The same state with another table of waiting ports. *)
Definition with_messagePorts (ports : gmap string Port) (s : State) : State :=
  {| messagePorts := ports;
     approvedMessages := approvedMessages s;
     storage_local := storage_local s |}.

(** The setting that governs the evaluation of a message, and the allow
    list that exempts its host, as [createPopup] dispatches it. *)
Definition setting_of `{Payloads} (message : Message) : string :=
  match message with
  | TransactionMessage _ _ => "settings:warnOnApproval"
  | TypedSignatureMessage _ typedData =>
      if String.eqb (primaryType typedData) "Permit"
      then "settings:warnOnApproval" else "settings:warnOnListing"
  | _ => "settings:warnOnHashSignatures"
  end.

Definition allow_list_of `{Collaborators} (message : Message) : list string :=
  match message with
  | TransactionMessage _ _ => AllowList_ALLOWANCE
  | TypedSignatureMessage _ typedData =>
      if String.eqb (primaryType typedData) "Permit"
      then AllowList_ALLOWANCE else AllowList_NFT_LISTING
  | _ => AllowList_HASH_SIGNATURE
  end.

(** A service whose user switched the hash warning off. *)
Definition quiet_state : State :=
  {| messagePorts := ∅; approvedMessages := [];
     storage_local := {["settings:warnOnHashSignatures" := false]} |}.

(** ** lib/utils/misc.ts *)

Definition hex_digit_lower (n : N) : ascii :=
  default "0"%char (String.get (N.to_nat n) "0123456789abcdef").

(** [n.toString(16)] on a natural number: the digits are produced from the
    last one; [fuel] bounds their number. *)
Fixpoint toString16_go (fuel : nat) (n : N) (acc : string) : string :=
  match fuel with
  | O => acc
  | S fuel =>
      let acc := String (hex_digit_lower (n mod 16)) acc in
      if (n <? 16)%N then acc else toString16_go fuel (n / 16) acc
  end.

Definition Number_toString16 (n : N) : string :=
  toString16_go (S (N.to_nat (N.log2 n))) n EmptyString.

(** [s.substring(1)]. *)
Definition substring_from_1 (s : string) : string :=
  match s with
  | String _ rest => rest
  | EmptyString => EmptyString
  end.

(** The integer nearest to [x], a tie going to the even one. *)
Definition round_half_even (x : Q) : Z :=
  let f := Qfloor x in
  match (x - inject_Z f ?= 1 # 2)%Q with
  | Lt => f
  | Gt => f + 1
  | Eq => if Z.even f then f else f + 1
  end.

(** [1 + random] as the addition of doubles computes it, for [random]
    between 0 and 1. The doubles from 1 to 2 are the multiples of 2^-52; the
    sum is the one nearest to the exact sum, a tie going to the one whose
    last bit is 0. *)
Definition double_one_plus (random : Q) : Q :=
  round_half_even ((1 + random) * (4503599627370496 # 1))%Q # 4503599627370496.

(** [s4], lines 3-6 of misc.ts, for the number [random] that [Math.random()]
    returns. The sum is rounded to a double; its product with 0x10000, a
    power of two, is exact. *)
Definition s4 (random : Q) : string :=
  substring_from_1
    (Number_toString16
       (Z.to_N (Qfloor (double_one_plus random * (65536 # 1))%Q))).

(** [randomId], lines 2-9 of misc.ts; [random n] is what the [n]-th call of
    [Math.random()] returns, the calls being made from left to right. *)
Definition randomId (random : nat → Q) : string :=
  s4 (random 0%nat) +:+ s4 (random 1%nat) +:+ "-" +:+ s4 (random 2%nat) +:+ "-"
  +:+ s4 (random 3%nat) +:+ "-" +:+ s4 (random 4%nat) +:+ "-"
  +:+ s4 (random 5%nat) +:+ s4 (random 6%nat) +:+ s4 (random 7%nat).

(** Whether every character of [s] is one of [0-9a-f]. *)
Fixpoint all_hex_lower (s : string) : bool :=
  match s with
  | EmptyString => true
  | String c rest => occurs c "0123456789abcdef" && all_hex_lower rest
  end.

(** Whether [s] is written like a UUID: five groups of 8, 4, 4, 4 and 12
    lower-case hexadecimal digits, with a hyphen between two groups. *)
Definition uuid_shaped (s : string) : bool :=
  bool_decide (map String.length (split_on "-" s) = [8; 4; 4; 4; 12]%nat)
  && forallb all_hex_lower (split_on "-" s).

(** Whether [c] is one of [0-9a-f]. *)
Definition is_hex_lower (c : ascii) : bool := occurs c "0123456789abcdef".

(** The value of a lower-case hexadecimal digit. *)
Definition hex_value (c : ascii) : N :=
  let n := N_of_ascii c in
  (if n <? 58 then n - 48 else n - 87)%N.

(** The number that a string of hexadecimal digits denotes. *)
Definition parse_hex (s : string) : N :=
  foldl (λ acc c, (16 * acc + hex_value c)%N) 0%N (list_ascii_of_string s).

(** ** The start of the service (lines 17-27) *)

(** A call of [init] of the analytics library. *)
Inductive AmplitudeCall : Type :=
  | Init (apiKey : string) (userId : string).

(** Whether an optional string is falsy: absent or empty. *)
Definition falsy (v : option string) : bool :=
  match v with
  | None => true
  | Some s => bool_decide (s = EmptyString)
  end.

(** [initialiseAmplitude], lines 19-24, on the extension's synchronised
    storage. Modelled from the spec: lib/utils/storage.ts is missing;
    [getStorage('sync', key)] answers the value stored under [key], if any,
    and [setStorage('sync', key, value)] stores [value] under [key]. *)
Definition initialiseAmplitude (apiKey : string) (random : nat → Q)
    (sync : gmap string string) : gmap string string * list AmplitudeCall :=
  let storedId := sync !! "user:id" in
  let userId := match storedId with Some id => id | None => randomId random end in
  let sync := if falsy storedId then <["user:id" := userId]> sync else sync in
  (sync, [Init apiKey userId]).

(** Lines 18-27: the analytics library is initialised when the build has an
    API key. *)
Definition start (AMPLITUDE_API_KEY : option string) (random : nat → Q)
    (sync : gmap string string) : gmap string string * list AmplitudeCall :=
  if falsy AMPLITUDE_API_KEY then (sync, [])
  else initialiseAmplitude (default EmptyString AMPLITUDE_API_KEY) random sync.

(** A source of random numbers for the examples. *)
Definition demo_random (n : nat) : Q := (Z.of_nat n # 10)%Q.

(** * Properties *)

(** ** Rounding and geometry *)

(** Half of an integer, rounded: [Math.round(n * 0.5)]. *)
Lemma Math_round_half (n : Z) :
  Math_round (inject_Z n * (5 # 10)) = (n + 1) / 2.
Proof.
  unfold Math_round, Qfloor, Qplus, Qmult, inject_Z. cbn [Qnum Qden].
  replace ((n * 5 * 2 + 1 * Z.pos (1 * 10))) with ((n + 1) * 10) by lia.
  change (Z.pos (1 * 10 * 2)) with (2 * 10).
  apply Z.div_mul_cancel_r; lia.
Qed.

(** A fifth of an integer, rounded: [Math.round(n * 0.2)]. *)
Lemma Math_round_fifth (n : Z) :
  Math_round (inject_Z n * (2 # 10)) = (2 * n + 5) / 10.
Proof.
  unfold Math_round, Qfloor, Qplus, Qmult, inject_Z. cbn [Qnum Qden].
  replace ((n * 2 * 2 + 1 * Z.pos (1 * 10))) with ((2 * n + 5) * 2) by lia.
  change (Z.pos (1 * 10 * 2)) with (10 * 2).
  apply Z.div_mul_cancel_r; lia.
Qed.

(** C7. The popup is 480 wide and [320 + 24 * contentLines] high, 24 more
    when bypassed; its left edge is the reference window's left edge plus
    half of the spare width rounded to the nearest integer, its top edge the
    reference window's top edge plus a fifth of the spare height rounded to
    the nearest integer; the window (100, 50, 1000 x 800) with two content
    lines gives 480 x 368 at (360, 136). *)
Theorem getPopupPositions_geometry (window : Window) (contentLines : Z)
    (bypassed : option bool) :
  let p := getPopupPositions window contentLines bypassed in
  popup_width p = 480
  ∧ popup_height p
    = 320 + 24 * contentLines + (if truthy bypassed then 24 else 0)
  ∧ popup_left p
    = left window + Math_round (inject_Z (width window - 480) * (5 # 10))
  ∧ popup_top p
    = top window
      + Math_round (inject_Z (height window - popup_height p) * (2 # 10))
  ∧ popup_left p = left window + (width window - 480 + 1) / 2
  ∧ popup_top p = top window + (2 * (height window - popup_height p) + 5) / 10
  ∧ (2 * (popup_left p - left window) - 1 ≤ width window - 480
     ∧ width window - 480 < 2 * (popup_left p - left window) + 1)
  ∧ (10 * (popup_top p - top window) - 5 ≤ 2 * (height window - popup_height p)
     ∧ 2 * (height window - popup_height p) < 10 * (popup_top p - top window) + 5)
  ∧ (∀ b, truthy b = false →
       getPopupPositions {| left := 100; top := 50; width := 1000; height := 800 |} 2 b
       = {| popup_width := 480; popup_height := 368;
            popup_left := 360; popup_top := 136 |}).
Proof.
  cbv zeta. unfold getPopupPositions.
  cbn [popup_width popup_height popup_left popup_top].
  rewrite Math_round_half, Math_round_fifth.
  set (h := 320 + contentLines * 24 + (if truthy bypassed then 24 else 0)).
  pose proof (Z.div_mod (width window - 480 + 1) 2 ltac:(lia)) as Hl.
  pose proof (Z.mod_pos_bound (width window - 480 + 1) 2 ltac:(lia)) as Hl'.
  pose proof (Z.div_mod (2 * (height window - h) + 5) 10 ltac:(lia)) as Ht.
  pose proof (Z.mod_pos_bound (2 * (height window - h) + 5) 10 ltac:(lia)) as Ht'.
  split_and!; try reflexivity; try lia.
  intros b Hb. rewrite Hb. reflexivity.
Qed.

(** ** Stepping through the handlers *)

Ltac step_monad :=
  cbv beta iota zeta delta
    [bind ret gets modify emit getStorage track postMessage
     approvedMessages_push messagePorts_set messagePorts_delete
     bind_L lift throw dispatch responsePort_postMessage
     result state_after events fst snd].

Lemma includes_true (l : list string) (x : string) :
  includes l x = true ↔ x ∈ l.
Proof. unfold includes. apply bool_decide_eq_true. Qed.

Lemma includes_false (l : list string) (x : string) :
  includes l x = false ↔ x ∉ l.
Proof. unfold includes. apply bool_decide_eq_false. Qed.

Section Evaluation.
Context `{Collaborators}.

(** Each evaluation either declines without any effect or raises one popup
    and reports it; in both cases the state is left as it was. *)
Lemma createAllowancePopup_cases e subject s :
  createAllowancePopup e subject s = (false, s, [])
  ∨ ∃ allowance,
      match subject with
      | inl transaction => decodeApproval transaction
      | inr typedData => decodePermit typedData
      end = Some allowance
      ∧ (requestId e ∉ approvedMessages s)
      ∧ createAllowancePopup e subject s
        = (true, s, [ConfirmationPopup (allowance_query e allowance) 2 (bypassed e);
                     Track "Allowance requested" (requestId e)]).
Proof.
  unfold createAllowancePopup, allowance_query. step_monad.
  repeat case_match; simplify_eq; auto.
  all: right; eexists; split; [reflexivity|]; split; [|reflexivity].
  all: by apply includes_false.
Qed.

Lemma createNftListingPopup_cases e typedData s :
  createNftListingPopup e typedData s = (false, s, [])
  ∨ ∃ l,
      listing (decodeNftListing typedData) = Some l
      ∧ (requestId e ∉ approvedMessages s)
      ∧ createNftListingPopup e typedData s
        = (true, s,
           [ConfirmationPopup
              (listing_query e (platform (decodeNftListing typedData)) l)
              (Z.of_nat (length (offer l) + length (consideration l)))
              (bypassed e);
            Track "NFT listing requested" (requestId e)]).
Proof.
  unfold createNftListingPopup, listing_query. step_monad.
  repeat case_match; simplify_eq; auto.
  all: right; eexists; split; [reflexivity|]; split; [|reflexivity].
  all: by apply includes_false.
Qed.

Lemma createHashSignaturePopup_cases e signMessage s :
  (createHashSignaturePopup e signMessage s = (false, s, [])
   ∧ ¬ (hash_gate_open e s
        ∧ String.length (replace_0x (String_of_message signMessage)) = 64%nat))
  ∨ (createHashSignaturePopup e signMessage s
     = (true, s, [ConfirmationPopup (hash_query e) 0 (bypassed e);
                  Track "Hash signature requested" (requestId e)])
     ∧ hash_gate_open e s
     ∧ String.length (replace_0x (String_of_message signMessage)) = 64%nat).
Proof.
  unfold createHashSignaturePopup, hash_query, hash_gate_open. step_monad.
  repeat case_match; simplify_eq;
    repeat match goal with
    | Hc : negb _ = true |- _ => apply negb_true_iff in Hc
    | Hc : negb _ = false |- _ => apply negb_false_iff in Hc
    | Hc : includes _ _ = true |- _ => apply includes_true in Hc
    | Hc : includes _ _ = false |- _ => apply includes_false in Hc
    | Hc : (_ =? _)%nat = true |- _ => apply Nat.eqb_eq in Hc
    | Hc : (_ =? _)%nat = false |- _ => apply Nat.eqb_neq in Hc
    end;
    first [ left; split; [reflexivity | intros [(? & ? & ?) ?]; congruence]
          | right; auto ].
Qed.

Lemma createPopup_state message s :
  state_after (createPopup message s) = s.
Proof.
  destruct message as [e t|e t|e t|e ty t]; cbn [createPopup envelope data_message];
    try case_match.
  - by destruct (createAllowancePopup_cases e (inl t) s) as [->|(? & _ & _ & ->)].
  - by destruct (createAllowancePopup_cases e (inr t) s) as [->|(? & _ & _ & ->)].
  - by destruct (createNftListingPopup_cases e t s) as [->|(? & _ & _ & ->)].
  - by destruct (createHashSignaturePopup_cases e (Some t) s) as [[-> _]|[-> _]].
  - by destruct (createHashSignaturePopup_cases e t s) as [[-> _]|[-> _]].
Qed.

(** No evaluation posts anything on a port. *)
Lemma createPopup_deliveries message s :
  deliveries (events (createPopup message s)) = [].
Proof.
  destruct message as [e t|e t|e t|e ty t]; cbn [createPopup envelope data_message];
    try case_match.
  - by destruct (createAllowancePopup_cases e (inl t) s) as [->|(? & _ & _ & ->)].
  - by destruct (createAllowancePopup_cases e (inr t) s) as [->|(? & _ & _ & ->)].
  - by destruct (createNftListingPopup_cases e t s) as [->|(? & _ & _ & ->)].
  - by destruct (createHashSignaturePopup_cases e (Some t) s) as [[-> _]|[-> _]].
  - by destruct (createHashSignaturePopup_cases e t s) as [[-> _]|[-> _]].
Qed.

End Evaluation.

(** ** Intake *)

Section Intake.
Context `{Collaborators}.

(** What [processMessage] does, in terms of the evaluation it starts with. *)
Lemma processMessage_run message remotePort s :
  processMessage message remotePort s
  = (tt,
     (if truthy (bypassed (envelope message)) then s
      else if result (createPopup message s)
      then {| messagePorts :=
                <[requestId (envelope message) := remotePort]> (messagePorts s);
              approvedMessages := approvedMessages s;
              storage_local := storage_local s |}
      else s),
     events (createPopup message s)
     ++ (if truthy (bypassed (envelope message)) then []
         else if result (createPopup message s) then []
         else [PostMessage remotePort
                 {| response_requestId := requestId (envelope message);
                    response_data := true |}])).
Proof.
  pose proof (createPopup_state message s) as Hs.
  unfold processMessage. step_monad.
  destruct (createPopup message s) as [[created s'] l].
  cbn in Hs. subst s'.
  destruct (truthy (bypassed (envelope message))); [reflexivity|].
  destruct created; reflexivity.
Qed.

(** An approved request is declined by each of the three evaluations. *)
Lemma createPopup_approved message s :
  requestId (envelope message) ∈ approvedMessages s →
  createPopup message s = (false, s, []).
Proof.
  intros Happroved.
  destruct message as [e t|e t|e t|e ty t];
    cbn [createPopup envelope data_message] in *; try case_match.
  - by destruct (createAllowancePopup_cases e (inl t) s) as [->|(? & _ & ? & _)].
  - by destruct (createAllowancePopup_cases e (inr t) s) as [->|(? & _ & ? & _)].
  - by destruct (createNftListingPopup_cases e t s) as [->|(? & _ & ? & _)].
  - by destruct (createHashSignaturePopup_cases e (Some t) s)
      as [[-> _]|(_ & (_ & _ & ?) & _)].
  - by destruct (createHashSignaturePopup_cases e t s)
      as [[-> _]|(_ & (_ & _ & ?) & _)].
Qed.

(** C6. A request whose id is in the approved list when it is evaluated is
    not prompted, whatever its type and payload: the evaluation returns
    false and raises no popup, and a request that is not bypassed is answered
    at once with [true] on its own port. *)
Theorem approved_request_is_not_prompted message s :
  requestId (envelope message) ∈ approvedMessages s →
  result (createPopup message s) = false
  ∧ popups (events (createPopup message s)) = []
  ∧ (truthy (bypassed (envelope message)) = false →
     ∀ remotePort,
       processMessage message remotePort s
       = (tt, s, [PostMessage remotePort
                    {| response_requestId := requestId (envelope message);
                       response_data := true |}])).
Proof.
  intros Happroved.
  pose proof (createPopup_approved message s Happroved) as Hrun.
  rewrite Hrun. repeat split.
  intros Hb port. rewrite processMessage_run, Hrun, Hb. reflexivity.
Qed.

(** The hash evaluation prompts exactly when its gate is open and the text,
    once its leftmost "0x" is removed, is 64 characters long. *)
Lemma createHashSignaturePopup_result e signMessage s :
  result (createHashSignaturePopup e signMessage s) = true
  ↔ hash_gate_open e s
    ∧ String.length (replace_0x (String_of_message signMessage)) = 64%nat.
Proof.
  destruct (createHashSignaturePopup_cases e signMessage s)
    as [[-> Hno]|(-> & Hgate & Hlen)]; cbn; split; auto; congruence.
Qed.

(** C10. A message that is neither a transaction message nor a typed
    signature message, whatever its shape, is evaluated by the hash path: it
    is prompted exactly when the hash setting is on, the host is not on the
    hash allow list, the request is not approved and the 64-character test
    on its text succeeds. *)
Theorem other_messages_take_hash_path message s :
  isTransactionMessage message = false →
  isTypedSignatureMessage message = false →
  createPopup message s
  = createHashSignaturePopup (envelope message) (data_message message) s
  ∧ (result (createPopup message s) = true
     ↔ hash_gate_open (envelope message) s
       ∧ String.length
           (replace_0x (String_of_message (data_message message))) = 64%nat).
Proof.
  intros Htx Htyped.
  assert (createPopup message s
          = createHashSignaturePopup (envelope message) (data_message message) s)
    as Heq by (destruct message; cbn in *; congruence).
  split; [exact Heq|].
  rewrite Heq. apply createHashSignaturePopup_result.
Qed.

(** C5. A typed-data request is evaluated by the allowance path exactly when
    its primary type is the string "Permit" and by the listing path
    otherwise, as the telemetry event it causes shows; an untyped signature
    request is evaluated by the hash path. *)
Theorem typed_data_dispatch e typedData s :
  (primaryType typedData = "Permit" →
     createPopup (TypedSignatureMessage e typedData) s
     = createAllowancePopup e (inr typedData) s)
  ∧ (primaryType typedData ≠ "Permit" →
     createPopup (TypedSignatureMessage e typedData) s
     = createNftListingPopup e typedData s)
  ∧ ("Allowance requested"
       ∈ tracked (events (createPopup (TypedSignatureMessage e typedData) s)) →
     primaryType typedData = "Permit")
  ∧ ("NFT listing requested"
       ∈ tracked (events (createPopup (TypedSignatureMessage e typedData) s)) →
     primaryType typedData ≠ "Permit")
  ∧ (∀ signMessage,
       createPopup (UntypedSignatureMessage e signMessage) s
       = createHashSignaturePopup e (Some signMessage) s).
Proof.
  cbn [createPopup envelope data_message].
  destruct (String.eqb_spec (primaryType typedData) "Permit") as [Heq|Hne].
  - split_and!; try done.
    intros Hin. exfalso.
    destruct (createAllowancePopup_cases e (inr typedData) s)
      as [Hrun|(? & _ & _ & Hrun)];
      rewrite Hrun in Hin; cbn in Hin;
      repeat (apply elem_of_cons in Hin as [Hin|Hin]; [discriminate|]);
      by apply elem_of_nil in Hin.
  - split_and!; try done.
    intros Hin. exfalso.
    destruct (createNftListingPopup_cases e typedData s)
      as [Hrun|(? & _ & _ & Hrun)];
      rewrite Hrun in Hin; cbn in Hin;
      repeat (apply elem_of_cons in Hin as [Hin|Hin]; [discriminate|]);
      by apply elem_of_nil in Hin.
Qed.

(** C8. A prompting allowance evaluation passes 2 content lines to the
    popup, a prompting listing evaluation the number of offer legs plus the
    number of consideration legs, and a prompting hash evaluation 0; the
    popup is sized from that count, and with 2 offers and 3 considerations
    that is 5 lines and a popup 440 high, 24 more when bypassed. *)
Theorem popup_content_lines e s :
  (∀ subject,
     result (createAllowancePopup e subject s) = true →
     ∃ allowance,
       popups (events (createAllowancePopup e subject s))
       = [(allowance_query e allowance, 2, bypassed e)])
  ∧ (∀ typedData,
       result (createNftListingPopup e typedData s) = true →
       ∃ l,
         listing (decodeNftListing typedData) = Some l
         ∧ popups (events (createNftListingPopup e typedData s))
           = [(listing_query e (platform (decodeNftListing typedData)) l,
               Z.of_nat (length (offer l) + length (consideration l)),
               bypassed e)])
  ∧ (∀ signMessage,
       result (createHashSignaturePopup e signMessage s) = true →
       popups (events (createHashSignaturePopup e signMessage s))
       = [(hash_query e, 0, bypassed e)])
  ∧ (∀ window q n b,
       createConfirmationPopup window q n b
       = [WindowsCreate ("confirm.html?" +:+ q) "popup"
            (getPopupPositions window n b);
          WindowsUpdate (getPopupPositions window n b)]
       ∧ popup_height (getPopupPositions window n b)
         = 320 + 24 * n + (if truthy b then 24 else 0))
  ∧ (∀ (l : Listing) window b,
       length (offer l) = 2%nat →
       length (consideration l) = 3%nat →
       Z.of_nat (length (offer l) + length (consideration l)) = 5
       ∧ popup_height
           (getPopupPositions window
              (Z.of_nat (length (offer l) + length (consideration l))) b)
         = 440 + (if truthy b then 24 else 0)).
Proof.
  split_and!.
  - intros subject.
    destruct (createAllowancePopup_cases e subject s)
      as [->|(a & _ & _ & ->)]; cbn; [done|eauto].
  - intros typedData.
    destruct (createNftListingPopup_cases e typedData s)
      as [->|(l & ? & _ & ->)]; cbn; [done|eauto].
  - intros signMessage.
    destruct (createHashSignaturePopup_cases e signMessage s)
      as [[-> _]|[-> _]]; cbn; done.
  - intros window q n b. split; [reflexivity|]. cbn. lia.
  - intros l window b Hoffer Hconsideration.
    rewrite Hoffer, Hconsideration. split; [reflexivity|]. cbn. lia.
Qed.

End Intake.

(** ** The answer of the popup *)

(** What the listener does to the state and which calls it makes. *)
Lemma onMessage_run (response : MessageResponse) (s : State) :
  onMessage response s
  = (tt,
     {| messagePorts := delete_own (response_requestId response) (messagePorts s);
        approvedMessages :=
          if response_data response
          then approvedMessages s ++ [response_requestId response]
          else approvedMessages s;
        storage_local := storage_local s |},
     Track "Responded to request" (response_requestId response)
     :: match messagePorts s !! response_requestId response with
        | Some port => [PostMessage port response]
        | None => []
        end).
Proof.
  unfold onMessage, messagePorts_get. step_monad.
  assert (messagePorts s !! response_requestId response = None →
          delete_own (response_requestId response) (messagePorts s)
          = messagePorts s) as Hsame.
  { intros Hfree. unfold delete_own. case_match; [done|by apply delete_id]. }
  destruct (messagePorts s !! response_requestId response) eqn:Hport,
    (response_data response); cbn [found app]; try reflexivity;
    rewrite (Hsame eq_refl);
    destruct (includes Object_prototype_names (response_requestId response));
    cbn [found app]; by destruct s.
Qed.

(** Deleting leaves nothing that was not there before. *)
Lemma lookup_delete_own_Some id id' ports (port : Port) :
  delete_own id ports !! id' = Some port → ports !! id' = Some port.
Proof.
  unfold delete_own. case_match; [done|].
  intros Hport. by apply lookup_delete_Some in Hport as [_ Hport].
Qed.

Lemma lookup_delete_own_None id id' ports :
  ports !! id' = None → delete_own id ports !! id' = None.
Proof.
  intros Hfree. destruct (delete_own id ports !! id') as [port|] eqn:Hport; [|done].
  apply lookup_delete_own_Some in Hport. congruence.
Qed.

(** Deleting an id other than "__proto__" removes what is stored under it. *)
Lemma delete_own_ordinary id ports :
  id ≠ "__proto__" → delete_own id ports = delete id ports.
Proof. intros Hid. unfold delete_own. by rewrite bool_decide_eq_false_2. Qed.

Lemma delete_own_proto ports : delete_own "__proto__" ports = ports.
Proof. reflexivity. Qed.

Lemma deliveries_for_app id l1 l2 :
  deliveries_for id (l1 ++ l2) = deliveries_for id l1 ++ deliveries_for id l2.
Proof. unfold deliveries_for, deliveries. by rewrite omap_app, filter_app. Qed.

(** One answer delivers at most the answer itself. *)
Lemma onMessage_deliveries response s :
  deliveries (events (onMessage response s))
  = match messagePorts s !! response_requestId response with
    | Some port => [(port, response)]
    | None => []
    end.
Proof. rewrite onMessage_run. cbn. by case_match. Qed.

Lemma onMessage_ports response s :
  messagePorts (state_after (onMessage response s))
  = delete_own (response_requestId response) (messagePorts s).
Proof. by rewrite onMessage_run. Qed.

Section Loop.
Context `{Collaborators}.

Lemma handleAll_cons input later s :
  handleAll (input :: later) s
  = (tt, state_after (handleAll later (state_after (handle input s))),
     events (handle input s)
     ++ events (handleAll later (state_after (handle input s)))).
Proof.
  cbn [handleAll]. unfold bind at 1.
  destruct (handle input s) as [[[] s1] l1]. cbn [state_after events fst snd].
  destruct (handleAll later s1) as [[[] s2] l2]. reflexivity.
Qed.

(** Intake of a request posts nothing about another request and leaves the
    registration of every other id as it was. *)
Lemma processMessage_other id message remotePort s :
  requestId (envelope message) ≠ id →
  deliveries_for id (events (processMessage message remotePort s)) = []
  ∧ messagePorts (state_after (processMessage message remotePort s)) !! id
    = messagePorts s !! id.
Proof.
  intros Hother. rewrite processMessage_run. cbn [events state_after fst snd].
  split.
  - rewrite deliveries_for_app. unfold deliveries_for at 1.
    rewrite createPopup_deliveries.
    repeat case_match; try done.
    unfold deliveries_for. cbn. by rewrite decide_False.
  - repeat case_match; try done. cbn. by rewrite lookup_insert_ne.
Qed.

(** Once no port waits under an id, nothing is delivered for that id,
    whatever the service receives next, as long as the id is not used by
    another request. *)
Lemma handleAll_unregistered id later s :
  messagePorts s !! id = None →
  Forall (λ input, ¬ requests id input) later →
  deliveries_for id (events (handleAll later s)) = [].
Proof.
  intros Hfree Hfresh. revert s Hfree.
  induction Hfresh as [|input later Hinput _ IH]; intros s Hfree; [done|].
  rewrite handleAll_cons. cbn [events snd]. rewrite deliveries_for_app.
  destruct input as [message remotePort|response]; cbn [handle requests] in *.
  - destruct (processMessage_other id message remotePort s Hinput) as [-> Hports].
    apply IH. by rewrite Hports.
  - rewrite IH.
    + rewrite app_nil_r. unfold deliveries_for.
      rewrite onMessage_deliveries.
      destruct (messagePorts s !! response_requestId response) eqn:Hport; [|done].
      cbn. rewrite decide_False; [done|]. cbn. congruence.
    + rewrite onMessage_ports. by apply lookup_delete_own_None.
Qed.

End Loop.

(** C1 fails for a request sent under the id "__proto__". Line 71 then
    makes the port the prototype of the table instead of storing it, and
    line 53 deletes nothing, so that every later answer finds the port
    again. Here the service holds such a request from port 7; the answer of
    the popup, given twice, is posted to port 7 twice, where the claim
    allows one message. *)
Theorem proto_request_is_answered_twice :
  let answer := {| response_requestId := "__proto__"; response_data := true |} in
  let held := state_after (@processMessage _ demo_collaborators
                             demo_proto_hash 7%nat initial_state) in
  let first := onMessage answer held in
  let second := onMessage answer (state_after first) in
  messagePorts held !! "__proto__" = Some 7%nat
  ∧ deliveries (events first) = [(7%nat, answer)]
  ∧ messagePorts (state_after first) !! "__proto__" = Some 7%nat
  ∧ deliveries (events second) = [(7%nat, answer)]
  ∧ deliveries_for "__proto__"
      (events (@handleAll _ demo_collaborators
                 [Incoming demo_proto_hash 7%nat; Answer answer; Answer answer]
                 initial_state))
    = [(7%nat, answer); (7%nat, answer)].
Proof. cbv zeta. split_and!; vm_compute; reflexivity. Qed.

(** C2, as the code has it. A bypassed request is evaluated like any other:
    intake starts with the evaluation, raises the popup whenever the
    evaluation prompts, and the decision does not depend on the flag; the
    flag only keeps intake from answering and from registering the port. *)
Theorem bypassed_request_is_still_evaluated `{Collaborators}
    (message : Message) (remotePort : Port) (s : State) :
  truthy (bypassed (envelope message)) = true →
  processMessage message remotePort s = (tt, s, events (createPopup message s))
  ∧ popups (events (processMessage message remotePort s))
    = popups (events (createPopup message s))
  ∧ (∀ b, result (createPopup (message_with_bypassed b message) s)
          = result (createPopup message s)).
Proof.
  intros Hb. rewrite processMessage_run, Hb, app_nil_r.
  split_and!; try reflexivity.
  intros b.
  destruct message as [e t|e t|e t|e ty t];
    cbn [createPopup message_with_bypassed envelope data_message];
    unfold createAllowancePopup, createNftListingPopup, createHashSignaturePopup;
    step_monad; cbn [with_bypassed hostname requestId];
    repeat case_match; simplify_eq; reflexivity.
Qed.

(** C3. Intake of a bypassed request posts nothing on any port and leaves
    the table of waiting ports as it was; when no port was waiting under the
    request's id, nothing is delivered for that id afterwards, whatever
    answers and other requests the service receives. *)
Theorem bypassed_request_gets_no_answer `{Collaborators}
    (message : Message) (remotePort : Port) (s : State) :
  truthy (bypassed (envelope message)) = true →
  let run := processMessage message remotePort s in
  deliveries (events run) = []
  ∧ messagePorts (state_after run) = messagePorts s
  ∧ (messagePorts s !! requestId (envelope message) = None →
     ∀ later,
       Forall (λ input, ¬ requests (requestId (envelope message)) input) later →
       deliveries_for (requestId (envelope message))
         (events (handleAll later (state_after run))) = []).
Proof.
  intros Hb run. subst run. rewrite processMessage_run, Hb, app_nil_r.
  cbn [events state_after fst snd].
  split_and!; [apply createPopup_deliveries | reflexivity |].
  intros Hfree later Hfresh. by apply handleAll_unregistered.
Qed.

(** ** The hash heuristic *)

(** On a text that starts with "0x", removing the leftmost "0x" and
    stripping the prefix are the same. *)
Lemma replace_0x_on_prefixed (s : string) :
  replace_0x (String "0" (String "x" s)) = s
  ∧ strip_0x_prefix (String "0" (String "x" s)) = s.
Proof. split; reflexivity. Qed.

(** On a text without any "x", such as a bare hexadecimal digest, both
    leave the text as it is. *)
Lemma replace_0x_without_x (s : string) :
  occurs "x" s = false →
  replace_0x s = s ∧ strip_0x_prefix s = s.
Proof.
  intros Hx. split.
  - induction s as [|c s IH]; [done|].
    cbn in Hx. apply orb_false_iff in Hx as [_ Hx].
    destruct s as [|c' s]; [done|].
    cbn [replace_0x]. cbn [replace_0x] in IH. rewrite (IH Hx).
    cbn in Hx. apply orb_false_iff in Hx as [-> _].
    by rewrite andb_false_r.
  - destruct s as [|c [|c' s]]; try done.
    cbn in *. apply orb_false_iff in Hx as [_ Hx].
    apply orb_false_iff in Hx as [-> _]. by rewrite andb_false_r.
Qed.

(** C4, on the code. The evaluation removes the leftmost "0x" wherever it
    stands, not only a prefix. A sentence of 66 characters that names an
    account is prompted as if it were a digest, although it has no prefix to
    strip and is 66 characters long; a text of 64 characters that contains
    "0x" is not prompted, although it is 64 characters long with no prefix to
    strip. *)
Theorem hash_heuristic_removes_inner_0x :
  String.prefix "0x" demo_sentence = false
  ∧ String.length (strip_0x_prefix demo_sentence) = 66%nat
  ∧ String.length (replace_0x demo_sentence) = 64%nat
  ∧ @hash_gate_open _ demo_collaborators (demo_envelope "r1" None) initial_state
  ∧ result (@createPopup _ demo_collaborators
              (@UntypedSignatureMessage demo_payloads
                 (demo_envelope "r1" None) demo_sentence)
              initial_state) = true
  ∧ String.length (strip_0x_prefix demo_code_text) = 64%nat
  ∧ String.length (replace_0x demo_code_text) = 62%nat
  ∧ result (@createPopup _ demo_collaborators
              (@UntypedSignatureMessage demo_payloads
                 (demo_envelope "r1" None) demo_code_text)
              initial_state) = false.
Proof.
  split_and!; try (vm_compute; reflexivity).
  unfold hash_gate_open. split_and!.
  - reflexivity.
  - apply includes_false. vm_compute. reflexivity.
  - apply includes_false. vm_compute. reflexivity.
Qed.

(** ** Query strings *)

Lemma append_cons (c : ascii) (a b : string) :
  String c a +:+ b = String c (a +:+ b).
Proof. reflexivity. Qed.

Lemma occurs_app (c : ascii) (a b : string) :
  occurs c (a +:+ b) = occurs c a || occurs c b.
Proof.
  induction a as [|c' a IH]; [done|].
  rewrite append_cons. cbn [occurs]. by rewrite IH, orb_assoc.
Qed.

(** A piece without separator in front of a separator is cut off whole. *)
Lemma split_on_piece (sep : ascii) (a b : string) :
  occurs sep a = false →
  split_on sep (a +:+ String sep b) = a :: split_on sep b.
Proof.
  induction a as [|c a IH]; intros Hfree.
  - change (EmptyString +:+ String sep b) with (String sep b).
    cbn [split_on]. by rewrite Ascii.eqb_refl.
  - cbn in Hfree. apply orb_false_iff in Hfree as [Hc Hfree].
    rewrite append_cons. cbn [split_on]. rewrite Hc, (IH Hfree). reflexivity.
Qed.

Lemma split_on_whole (sep : ascii) (a : string) :
  occurs sep a = false → split_on sep a = [a].
Proof.
  induction a as [|c a IH]; intros Hfree; [done|].
  cbn in Hfree. apply orb_false_iff in Hfree as [Hc Hfree].
  cbn. rewrite Hc, (IH Hfree). reflexivity.
Qed.

Lemma hex_digit_plain (n : N) :
  hex_digit n ≠ "&"%char ∧ hex_digit n ≠ "="%char.
Proof.
  unfold hex_digit. generalize (N.to_nat n). intros i.
  do 16 (destruct i as [|i]; [by split|]). by split.
Qed.

Lemma form_safe_plain (b : N) :
  form_safe b = true → (b < 256 ∧ b ≠ 38 ∧ b ≠ 61)%N.
Proof.
  unfold form_safe.
  rewrite !orb_true_iff, !andb_true_iff, !N.eqb_eq, !N.leb_le. lia.
Qed.

(** Neither [&] nor [=] survives the encoding. *)
Lemma occurs_urlencode_byte (sep : ascii) (b : N) :
  sep = "&"%char ∨ sep = "="%char →
  occurs sep (urlencode_byte b) = false.
Proof.
  intros Hsep. unfold urlencode_byte.
  destruct (b =? 32)%N; [by destruct Hsep as [->| ->]|].
  destruct (form_safe b) eqn:Hsafe.
  - cbn. rewrite orb_false_r. apply Ascii.eqb_neq. intros Heq.
    apply form_safe_plain in Hsafe as (Hlt & H38 & H61).
    assert (b = N_of_ascii sep) as Hb
      by (rewrite <- Heq; symmetry; by apply N_ascii_embedding).
    destruct Hsep as [->| ->]; cbn in Hb; lia.
  - unfold percent_byte. cbn.
    destruct (hex_digit_plain (b / 16)) as [H1 H2],
      (hex_digit_plain (b mod 16)) as [H3 H4].
    destruct Hsep as [->| ->];
      rewrite ?orb_false_r; repeat (apply orb_false_iff; split);
      first [reflexivity | by apply Ascii.eqb_neq].
Qed.

Lemma occurs_urlencode (sep : ascii) (s : string) :
  sep = "&"%char ∨ sep = "="%char →
  occurs sep (urlencode s) = false.
Proof.
  intros Hsep. induction s as [|c s IH]; [done|].
  cbn [urlencode]. unfold utf8.
  destruct (N_of_ascii c <? 128)%N; cbn [foldr];
    by rewrite !occurs_app, !occurs_urlencode_byte, IH.
Qed.

(** The name read back from an encoded entry is the encoded name. *)
Lemma name_of_piece_entry (k v : string) :
  name_of_piece (urlencode k +:+ "=" +:+ urlencode v) = urlencode k.
Proof.
  unfold name_of_piece.
  change ("=" +:+ urlencode v) with (String "=" (urlencode v)).
  by rewrite split_on_piece by (apply occurs_urlencode; auto).
Qed.

Lemma split_on_entries (params : list (string * string)) :
  params ≠ [] →
  split_on "&" (URLSearchParams_toString params)
  = map (λ p, urlencode p.1 +:+ "=" +:+ urlencode p.2) params.
Proof.
  unfold URLSearchParams_toString.
  assert (∀ p : string * string,
            occurs "&" (urlencode p.1 +:+ "=" +:+ urlencode p.2) = false)
    as Hfree.
  { intros p. rewrite !occurs_app, !occurs_urlencode by auto. done. }
  induction params as [|p params IH]; [done|]. intros _.
  destruct params as [|q params].
  - cbn. by apply split_on_whole.
  - cbn [map String.concat].
    change ("&" +:+ ?x) with (String "&" x).
    rewrite split_on_piece by apply Hfree.
    f_equal. by apply IH.
Qed.

(** Reading the names back from a serialised record gives the encoded names
    of its entries, in order. *)
Lemma query_names_toString (params : list (string * string)) :
  query_names (URLSearchParams_toString params)
  = map (λ p, urlencode p.1) params.
Proof.
  destruct params as [|p params]; [done|].
  unfold query_names. rewrite split_on_entries by done.
  generalize (p :: params). clear. intros params.
  induction params as [|p params IH]; [done|].
  cbn [map]. rewrite filter_cons_True.
  - cbn [map]. by rewrite name_of_piece_entry, IH.
  - intros Hempty.
    assert (occurs "=" (urlencode p.1 +:+ "=" +:+ urlencode p.2) = true) as Hocc.
    { rewrite !occurs_app. cbn. by rewrite orb_true_r. }
    by rewrite Hempty in Hocc.
Qed.

(** C9, as the code has it. The query string of an allowance popup and of a
    listing popup names type, requestId, chainId, bypassed and hostname
    besides the parameters of its kind; the query string of a hash popup
    names type, requestId, bypassed and hostname, and no chainId. *)
Theorem popup_query_parameters `{Collaborators} (e : Envelope) (s : State) :
  (∀ subject q n b,
     (q, n, b) ∈ popups (events (createAllowancePopup e subject s)) →
     query_names q
     = ["type"; "requestId"; "asset"; "spender"; "chainId"; "bypassed"; "hostname"])
  ∧ (∀ typedData q n b,
       (q, n, b) ∈ popups (events (createNftListingPopup e typedData s)) →
       query_names q
       = ["type"; "requestId"; "listing"; "platform"; "chainId"; "bypassed";
          "hostname"])
  ∧ (∀ signMessage q n b,
       (q, n, b) ∈ popups (events (createHashSignaturePopup e signMessage s)) →
       query_names q = ["type"; "requestId"; "bypassed"; "hostname"]
       ∧ "chainId" ∉ query_names q).
Proof.
  split_and!.
  - intros subject q n b.
    destruct (createAllowancePopup_cases e subject s)
      as [->|(a & _ & _ & ->)]; cbn -[allowance_query listing_query hash_query]; intros Hin.
    + by apply elem_of_nil in Hin.
    + apply list_elem_of_singleton in Hin. simplify_eq.
      unfold allowance_query. by rewrite query_names_toString.
  - intros typedData q n b.
    destruct (createNftListingPopup_cases e typedData s)
      as [->|(l & _ & _ & ->)]; cbn -[allowance_query listing_query hash_query]; intros Hin.
    + by apply elem_of_nil in Hin.
    + apply list_elem_of_singleton in Hin. simplify_eq.
      unfold listing_query. by rewrite query_names_toString.
  - intros signMessage q n b.
    destruct (createHashSignaturePopup_cases e signMessage s)
      as [[-> _]|[-> _]]; cbn -[allowance_query listing_query hash_query]; intros Hin.
    + by apply elem_of_nil in Hin.
    + apply list_elem_of_singleton in Hin. simplify_eq.
      unfold hash_query. rewrite query_names_toString. split; [done|].
      cbn [map fst]. intros Hc.
      repeat (apply elem_of_cons in Hc as [Hc|Hc]; [discriminate|]).
      by apply elem_of_nil in Hc.
Qed.

(** ** The handlers on concrete requests *)

(** C2 as stated fails: a bypassed request to sign a digest raises the hash
    popup. *)
Lemma bypassed_request_raises_popup :
  truthy (bypassed (envelope (demo_hash (Some true)))) = true
  ∧ popups (events (@processMessage _ demo_collaborators
                      (demo_hash (Some true)) 7%nat initial_state))
    = [("type=hash&requestId=r1&bypassed=true&hostname=example.org", 0, Some true)].
Proof. split; vm_compute; reflexivity. Qed.

Lemma bypassed_request_is_still_evaluated_witness :
  @processMessage _ demo_collaborators (demo_hash (Some true)) 7%nat initial_state
  = (tt, initial_state,
     events (@createPopup _ demo_collaborators (demo_hash (Some true)) initial_state))
  ∧ result (@createPopup _ demo_collaborators (demo_hash None) initial_state)
    = result (@createPopup _ demo_collaborators (demo_hash (Some true)) initial_state).
Proof.
  destruct (@bypassed_request_is_still_evaluated _ demo_collaborators
              (demo_hash (Some true)) 7%nat initial_state eq_refl)
    as (Hrun & _ & Hdecision).
  split; [exact Hrun | exact (Hdecision None)].
Defined.

Lemma bypassed_request_gets_no_answer_witness :
  let run := @processMessage _ demo_collaborators
               (demo_hash (Some true)) 7%nat initial_state in
  let later := [@Answer demo_payloads
                  {| response_requestId := "r1"; response_data := true |}] in
  deliveries (events run) = []
  ∧ messagePorts (state_after run) = messagePorts initial_state
  ∧ deliveries_for "r1"
      (events (@handleAll _ demo_collaborators later (state_after run))) = [].
Proof.
  intros run later.
  destruct (@bypassed_request_gets_no_answer _ demo_collaborators
              (demo_hash (Some true)) 7%nat initial_state eq_refl)
    as (Hnone & Hports & Hlater).
  split_and!; [exact Hnone | exact Hports |].
  apply (Hlater eq_refl later).
  repeat constructor. cbn. tauto.
Defined.

(** A typed-data document named "Permit" that carries the legs of an order
    is evaluated as an allowance; named "permit" or "Order" it is evaluated
    as a listing. *)
Lemma typed_data_dispatch_witness :
  @createPopup _ demo_collaborators (demo_typed "Permit" None) initial_state
  = @createAllowancePopup _ demo_collaborators (demo_envelope "r1" None)
      (inr ("Permit", (["nft 1"; "nft 2"], ["eth"; "fee"; "royalty"])))
      initial_state
  ∧ @createPopup _ demo_collaborators (demo_typed "permit" None) initial_state
    = @createNftListingPopup _ demo_collaborators (demo_envelope "r1" None)
        ("permit", (["nft 1"; "nft 2"], ["eth"; "fee"; "royalty"]))
        initial_state.
Proof.
  split.
  - apply (@typed_data_dispatch _ demo_collaborators (demo_envelope "r1" None)
             ("Permit", (["nft 1"; "nft 2"], ["eth"; "fee"; "royalty"]))
             initial_state).
    reflexivity.
  - apply (@typed_data_dispatch _ demo_collaborators (demo_envelope "r1" None)
             ("permit", (["nft 1"; "nft 2"], ["eth"; "fee"; "royalty"]))
             initial_state).
    discriminate.
Defined.

Lemma approved_request_is_not_prompted_witness :
  requestId (envelope (demo_approve None)) ∈ approvedMessages approved_state
  ∧ result (@createPopup _ demo_collaborators (demo_approve None) approved_state)
    = false
  ∧ @processMessage _ demo_collaborators (demo_approve None) 7%nat approved_state
    = (tt, approved_state,
       [PostMessage 7%nat {| response_requestId := "r1"; response_data := true |}]).
Proof.
  assert (requestId (envelope (demo_approve None)) ∈ approvedMessages approved_state)
    as Hin by (apply includes_true; vm_compute; reflexivity).
  destruct (@approved_request_is_not_prompted _ demo_collaborators
              (demo_approve None) approved_state Hin) as (Hresult & _ & Hanswer).
  split_and!; [exact Hin | exact Hresult | exact (Hanswer eq_refl 7%nat)].
Defined.

Lemma getPopupPositions_geometry_witness :
  let p := getPopupPositions
             {| left := 100; top := 50; width := 1000; height := 800 |} 2
             (Some false) in
  popup_width p = 480 ∧ popup_height p = 368
  ∧ popup_left p = 360 ∧ popup_top p = 136.
Proof.
  intros p.
  destruct (getPopupPositions_geometry
              {| left := 100; top := 50; width := 1000; height := 800 |} 2
              (Some false))
    as (Hwidth & Hheight & _ & _ & Hleft & Htop & _).
  fold p in Hwidth, Hheight, Hleft, Htop.
  split_and!; [exact Hwidth | exact Hheight | exact Hleft | exact Htop].
Defined.

(** The listing of the demonstration order: five content lines, a popup 440
    high. *)
Lemma popup_content_lines_witness :
  popups (events (@createPopup _ demo_collaborators (demo_typed "Order" None)
                    initial_state))
  = [("type=listing&requestId=r1&listing=%7B%7D&platform=OpenSea&chainId=1&bypassed=undefined&hostname=example.org",
      5, None)]
  ∧ popup_height
      (getPopupPositions {| left := 100; top := 50; width := 1000; height := 800 |}
         (Z.of_nat (length ["nft 1"; "nft 2"] + length ["eth"; "fee"; "royalty"]))
         None) = 440.
Proof.
  destruct (@popup_content_lines _ demo_collaborators (demo_envelope "r1" None)
              initial_state) as (_ & Hlisting & _ & _ & Hheight).
  split.
  - destruct (Hlisting ("Order", (["nft 1"; "nft 2"], ["eth"; "fee"; "royalty"]))
                eq_refl) as (l & Hl & Hpopups).
    vm_compute in Hl. injection Hl as <-. exact Hpopups.
  - apply (Hheight
             (@Build_Listing demo_payloads
                ["nft 1"; "nft 2"] ["eth"; "fee"; "royalty"])
             {| left := 100; top := 50; width := 1000; height := 800 |} None
             eq_refl eq_refl).
Defined.

(** C9 as stated fails: the query string of a hash popup has no chainId. *)
Lemma hash_popup_query_lacks_chainId :
  result (@createPopup _ demo_collaborators (demo_hash (Some false)) initial_state)
  = true
  ∧ popups (events (@createPopup _ demo_collaborators (demo_hash (Some false))
                      initial_state))
    = [("type=hash&requestId=r1&bypassed=false&hostname=example.org", 0,
        Some false)]
  ∧ query_names "type=hash&requestId=r1&bypassed=false&hostname=example.org"
    = ["type"; "requestId"; "bypassed"; "hostname"]
  ∧ "chainId"
      ∉ query_names "type=hash&requestId=r1&bypassed=false&hostname=example.org".
Proof.
  split_and!; try (vm_compute; reflexivity).
  apply includes_false. vm_compute. reflexivity.
Qed.

Lemma popup_query_parameters_witness :
  query_names
    "type=allowance&requestId=r1&asset=0xA0b8&spender=0x1111&chainId=1&bypassed=undefined&hostname=example.org"
  = ["type"; "requestId"; "asset"; "spender"; "chainId"; "bypassed"; "hostname"].
Proof.
  destruct (@popup_query_parameters _ demo_collaborators
              (demo_envelope "r1" None) initial_state) as (Hallowance & _ & _).
  apply (Hallowance (inl "0x095ea7b3000000000000") _ 2 None).
  vm_compute. apply list_elem_of_singleton. reflexivity.
Defined.

Lemma other_messages_take_hash_path_witness :
  let message := @UnrecognisedMessage demo_payloads
                   (demo_envelope "r1" None) "eth_unknown" None in
  @createPopup _ demo_collaborators message initial_state
  = @createHashSignaturePopup _ demo_collaborators (demo_envelope "r1" None) None
      initial_state
  ∧ result (@createPopup _ demo_collaborators message initial_state) = false.
Proof.
  intros message.
  destruct (@other_messages_take_hash_path _ demo_collaborators message
              initial_state eq_refl eq_refl) as [Hpath _].
  split; [exact Hpath | vm_compute; reflexivity].
Defined.

(** * Further properties of the code *)

(** ** The three evaluations (lines 85-170) *)

Ltac reflect_tests :=
  repeat match goal with
  | Hc : negb _ = true |- _ => apply negb_true_iff in Hc
  | Hc : negb _ = false |- _ => apply negb_false_iff in Hc
  | Hc : includes _ _ = true |- _ => apply includes_true in Hc
  | Hc : includes _ _ = false |- _ => apply includes_false in Hc
  | Hc : (_ =? _)%nat = true |- _ => apply Nat.eqb_eq in Hc
  | Hc : (_ =? _)%nat = false |- _ => apply Nat.eqb_neq in Hc
  end.

(** X1. The allowance evaluation prompts exactly when the approval setting
    is on (or not stored), the host is not on the allowance allow list, the
    request is not approved and the decoder finds an allowance; it then
    raises one popup and sends one telemetry event, and otherwise does
    nothing at all; it never changes the state. *)
Theorem allowance_prompt_conditions `{Collaborators} (e : Envelope)
    (subject : Transaction + TypedData) (s : State) :
  let decoded := match subject with
                 | inl transaction => decodeApproval transaction
                 | inr typedData => decodePermit typedData
                 end in
  let run := createAllowancePopup e subject s in
  (result run = true
   ↔ default true (storage_local s !! "settings:warnOnApproval") = true
     ∧ (hostname e ∉ AllowList_ALLOWANCE)
     ∧ (requestId e ∉ approvedMessages s)
     ∧ is_Some decoded)
  ∧ (∀ allowance, result run = true → decoded = Some allowance →
       events run
       = [ConfirmationPopup (allowance_query e allowance) 2 (bypassed e);
          Track "Allowance requested" (requestId e)])
  ∧ (result run = false → events run = [])
  ∧ state_after run = s.
Proof.
  cbv zeta. unfold createAllowancePopup, allowance_query. step_monad.
  repeat case_match; simplify_eq; reflect_tests; cbn [app];
    (split_and!;
     [ split;
       [ try discriminate; intros _; split_and!; eauto
       | intros (? & ? & ? & Hsome);
         first [ reflexivity | congruence | contradiction
               | by destruct Hsome ] ]
     | intros; try discriminate; by simplify_eq
     | intros; first [ reflexivity | discriminate ]
     | reflexivity ]).
Qed.

(** X2. The listing evaluation prompts exactly when the listing setting is
    on (or not stored), the host is not on the listing allow list, the
    request is not approved and the decoder finds a listing; it then raises
    one popup with one content line per leg and sends one telemetry event,
    and otherwise does nothing at all; it never changes the state. *)
Theorem listing_prompt_conditions `{Collaborators} (e : Envelope)
    (typedData : TypedData) (s : State) :
  let decoded := decodeNftListing typedData in
  let run := createNftListingPopup e typedData s in
  (result run = true
   ↔ default true (storage_local s !! "settings:warnOnListing") = true
     ∧ (hostname e ∉ AllowList_NFT_LISTING)
     ∧ (requestId e ∉ approvedMessages s)
     ∧ is_Some (listing decoded))
  ∧ (∀ l, result run = true → listing decoded = Some l →
       events run
       = [ConfirmationPopup (listing_query e (platform decoded) l)
            (Z.of_nat (length (offer l) + length (consideration l)))
            (bypassed e);
          Track "NFT listing requested" (requestId e)])
  ∧ (result run = false → events run = [])
  ∧ state_after run = s.
Proof.
  cbv zeta. unfold createNftListingPopup, listing_query. step_monad.
  repeat case_match; simplify_eq; reflect_tests; cbn [app];
    (split_and!;
     [ split;
       [ try discriminate; intros _; split_and!; eauto
       | intros (? & ? & ? & Hsome);
         first [ reflexivity | congruence | contradiction
               | by destruct Hsome ] ]
     | intros; try discriminate; by simplify_eq
     | intros; first [ reflexivity | discriminate ]
     | reflexivity ]).
Qed.

Lemma has_0x_length (s : string) :
  has_0x s = true → (2 ≤ String.length s)%nat.
Proof. destruct s as [|c [|c' s]]; cbn; intros; try discriminate; lia. Qed.

Lemma replace_0x_step (c c' : ascii) (s : string) :
  replace_0x (String c (String c' s))
  = if Ascii.eqb c "0" && Ascii.eqb c' "x" then s
    else String c (replace_0x (String c' s)).
Proof. reflexivity. Qed.

Lemma has_0x_step (c c' : ascii) (s : string) :
  has_0x (String c (String c' s))
  = (Ascii.eqb c "0" && Ascii.eqb c' "x") || has_0x (String c' s).
Proof. reflexivity. Qed.

(** Removing the leftmost "0x" shortens a text by two characters when there
    is one and leaves its length alone otherwise. *)
Lemma length_replace_0x (s : string) :
  String.length (replace_0x s)
  = if has_0x s then (String.length s - 2)%nat else String.length s.
Proof.
  induction s as [|c s IH]; [done|].
  destruct s as [|c' s]; [done|].
  rewrite replace_0x_step, has_0x_step.
  destruct (Ascii.eqb c "0" && Ascii.eqb c' "x"); cbn [orb].
  - cbn [String.length]. lia.
  - change (String.length (String c (replace_0x (String c' s))))
      with (S (String.length (replace_0x (String c' s)))).
    rewrite IH.
    destruct (has_0x (String c' s)) eqn:Hhas; [|done].
    apply has_0x_length in Hhas. cbn [String.length] in *. lia.
Qed.

(** X3. The hash evaluation prompts exactly when its gate is open and the
    text is 66 characters long with "0x" somewhere in it, or 64 characters
    long without any "0x"; a text of any other length, and a request without
    a message, is never prompted. *)
Theorem hash_prompt_lengths `{Collaborators} (e : Envelope)
    (signMessage : option string) (s : State) :
  let text := String_of_message signMessage in
  let prompts := result (createHashSignaturePopup e signMessage s) in
  (prompts = true
   ↔ hash_gate_open e s
     ∧ ((has_0x text = true ∧ String.length text = 66%nat)
        ∨ (has_0x text = false ∧ String.length text = 64%nat)))
  ∧ (String.length text ≠ 64%nat → String.length text ≠ 66%nat → prompts = false)
  ∧ (signMessage = None → prompts = false).
Proof.
  intros text prompts.
  assert (prompts = true
          ↔ hash_gate_open e s
            ∧ ((has_0x text = true ∧ String.length text = 66%nat)
               ∨ (has_0x text = false ∧ String.length text = 64%nat))) as Hiff.
  { subst prompts. rewrite createHashSignaturePopup_result.
    fold text. rewrite length_replace_0x.
    destruct (has_0x text) eqn:Hhas.
    - apply has_0x_length in Hhas.
      split; intros [Hgate Hlen]; (split; [exact Hgate|]).
      + left. split; [done|lia].
      + destruct Hlen as [[_ Hlen]|[? _]]; [lia|done].
    - split; intros [Hgate Hlen]; (split; [exact Hgate|]).
      + by right.
      + by destruct Hlen as [[? _]|[_ Hlen]]. }
  assert (String.length text ≠ 64%nat → String.length text ≠ 66%nat →
          prompts = false) as Hother.
  { intros H64 H66. destruct prompts; [|done].
    destruct (proj1 Hiff eq_refl) as (_ & [[_ ?]|[_ ?]]); contradiction. }
  split_and!; [exact Hiff | exact Hother |].
  intros ->. apply Hother; by cbn.
Qed.

Section Gating.
Context `{Collaborators}.

(** An evaluation declines without effect, or raises one popup that carries
    the request's bypass flag and reports it under the request's id. *)
Lemma createPopup_outcomes (message : Message) (s : State) :
  createPopup message s = (false, s, [])
  ∨ ∃ q n name,
      createPopup message s
      = (true, s, [ConfirmationPopup q n (bypassed (envelope message));
                   Track name (requestId (envelope message))]).
Proof.
  destruct message as [e t|e t|e t|e ty t];
    cbn [createPopup envelope data_message]; try case_match.
  - destruct (createAllowancePopup_cases e (inl t) s) as [->|(? & _ & _ & ->)]; eauto.
  - destruct (createAllowancePopup_cases e (inr t) s) as [->|(? & _ & _ & ->)]; eauto.
  - destruct (createNftListingPopup_cases e t s) as [->|(? & _ & _ & ->)]; eauto.
  - destruct (createHashSignaturePopup_cases e (Some t) s) as [[-> _]|[-> _]]; eauto.
  - destruct (createHashSignaturePopup_cases e t s) as [[-> _]|[-> _]]; eauto.
Qed.

(** The evaluations read the settings and the approved list only. *)
Lemma createPopup_frame (message : Message) (ports : gmap string Port) (s : State) :
  createPopup message (with_messagePorts ports s)
  = (result (createPopup message s), with_messagePorts ports s,
     events (createPopup message s)).
Proof.
  destruct message as [e t|e t|e t|e ty t];
    cbn [createPopup envelope data_message]; try case_match;
    unfold createAllowancePopup, createNftListingPopup, createHashSignaturePopup;
    unfold with_messagePorts; step_monad;
    repeat (case_match; cbn [approvedMessages storage_local] in *);
    simplify_eq; first [reflexivity | congruence].
Qed.

(** A message whose setting is off, or whose host is on its allow list, is
    declined. *)
Lemma createPopup_gated (message : Message) (s : State) :
  storage_local s !! setting_of message = Some false
  ∨ hostname (envelope message) ∈ allow_list_of message →
  createPopup message s = (false, s, []).
Proof.
  intros Hgate.
  destruct message as [e t|e t|e t|e ty t];
    cbn [createPopup envelope data_message setting_of allow_list_of] in *;
    try case_match;
    unfold createAllowancePopup, createNftListingPopup, createHashSignaturePopup;
    step_monad;
    (destruct Hgate as [->|Hhost];
     [ reflexivity
     | apply includes_true in Hhost; rewrite Hhost;
       by destruct (negb _) ]).
Qed.

End Gating.

(** X4. A request is let through without a popup when the setting of its
    own kind is switched off or its host is on the allow list of its own
    kind (approval setting and allowance list for transactions and permits,
    listing setting and list for other typed data, hash setting and list for
    everything else): the evaluation does nothing, a request that is not
    bypassed is answered [true] at once, a bypassed one causes nothing at
    all, and the state is left as it was. *)
Theorem gated_request_passes `{Collaborators} (message : Message)
    (remotePort : Port) (s : State) :
  storage_local s !! setting_of message = Some false
  ∨ hostname (envelope message) ∈ allow_list_of message →
  createPopup message s = (false, s, [])
  ∧ processMessage message remotePort s
    = (tt, s,
       if truthy (bypassed (envelope message)) then []
       else [PostMessage remotePort
               {| response_requestId := requestId (envelope message);
                  response_data := true |}]).
Proof.
  intros Hgate. pose proof (createPopup_gated message s Hgate) as Hrun.
  split; [exact Hrun|].
  rewrite processMessage_run, Hrun. cbn [result events fst snd app].
  by destruct (truthy (bypassed (envelope message))).
Qed.

(** X5. An evaluation only reads: it leaves the state as it was, posts
    nothing on any port, and its outcome does not depend on which ports are
    waiting. *)
Theorem evaluation_only_reads `{Collaborators} (message : Message)
    (ports : gmap string Port) (s : State) :
  state_after (createPopup message s) = s
  ∧ deliveries (events (createPopup message s)) = []
  ∧ result (createPopup message (with_messagePorts ports s))
    = result (createPopup message s)
  ∧ events (createPopup message (with_messagePorts ports s))
    = events (createPopup message s).
Proof.
  rewrite createPopup_frame.
  split_and!; try reflexivity;
    [apply createPopup_state | apply createPopup_deliveries].
Qed.

(** ** What a popup says about its request *)

(** A text made of characters that need no encoding is serialised as it is. *)
Lemma urlencode_safe (s : string) :
  form_safe_string s = true → urlencode s = s.
Proof.
  induction s as [|c s IH]; [done|].
  cbn [form_safe_string]. intros [Hc Hs]%andb_true_iff.
  cbn [urlencode]. unfold utf8.
  assert ((N_of_ascii c <? 128)%N = true) as ->.
  { apply N.ltb_lt. unfold form_safe in Hc.
    rewrite !orb_true_iff, !andb_true_iff, !N.eqb_eq, !N.leb_le in Hc. lia. }
  assert ((N_of_ascii c =? 32)%N = false) as Hspace.
  { apply N.eqb_neq. intros Heq. rewrite Heq in Hc. discriminate. }
  cbn [foldr]. unfold urlencode_byte.
  rewrite Hspace, Hc, ascii_N_embedding, (IH Hs). reflexivity.
Qed.

(** The entry read back from an encoded entry is the encoded entry. *)
Lemma entry_of_piece_entry (k v : string) :
  entry_of_piece (urlencode k +:+ "=" +:+ urlencode v)
  = (urlencode k, urlencode v).
Proof.
  unfold entry_of_piece.
  change ("=" +:+ urlencode v) with (String "=" (urlencode v)).
  rewrite split_on_piece by (apply occurs_urlencode; auto).
  by rewrite split_on_whole by (apply occurs_urlencode; auto).
Qed.

(** Reading the entries back from a serialised record gives its entries,
    encoded, in order: no value can add, hide or split a parameter. *)
Lemma query_entries_toString (params : list (string * string)) :
  query_entries (URLSearchParams_toString params)
  = map (λ p, (urlencode p.1, urlencode p.2)) params.
Proof.
  destruct params as [|p params]; [done|].
  unfold query_entries. rewrite split_on_entries by done.
  generalize (p :: params). clear. intros params.
  induction params as [|p params IH]; [done|].
  cbn [map]. rewrite filter_cons_True.
  - cbn [map]. by rewrite entry_of_piece_entry, IH.
  - intros Hempty.
    assert (occurs "=" (urlencode p.1 +:+ "=" +:+ urlencode p.2) = true) as Hocc.
    { rewrite !occurs_app. cbn. by rewrite orb_true_r. }
    by rewrite Hempty in Hocc.
Qed.

Lemma String_of_bool_safe (b : option bool) :
  urlencode (String_of_bool b) = String_of_bool b.
Proof. by destruct b as [[]|]. Qed.

Lemma filter_kind_entries (name : string) (params : list (string * string)) :
  Forall (λ p, p.1 ∈ ["asset"; "spender"; "listing"; "platform"; "chainId"])
    params →
  name ∉ ["asset"; "spender"; "listing"; "platform"; "chainId"] →
  filter (λ entry : string * string, entry.1 = name)
    (map (λ p, (urlencode p.1, urlencode p.2)) params) = [].
Proof.
  intros Hnames Hname. induction Hnames as [|p ps Hp _ IH]; [done|].
  cbn [map]. rewrite filter_cons_False; [exact IH|].
  cbn [fst]. intros <-. apply Hname. destruct p as [k v]. cbn [fst] in *.
  repeat (apply elem_of_cons in Hp as [->|Hp];
          [apply includes_true; vm_compute; reflexivity|]).
  by apply elem_of_nil in Hp.
Qed.

(** Decoding undoes the serialisation, character by character. *)
Lemma percent_decode_utf8 (c : ascii) (tail : string) :
  percent_decode (foldr (λ b acc, urlencode_byte b +:+ acc) tail (utf8 c))
  = utf8 c ++ percent_decode tail.
Proof. destruct c as [[] [] [] [] [] [] [] []]; reflexivity. Qed.

Lemma utf8_decode_utf8 (c : ascii) (bytes : list N) :
  utf8_decode (utf8 c ++ bytes) = String c (utf8_decode bytes).
Proof. destruct c as [[] [] [] [] [] [] [] []]; reflexivity. Qed.

Lemma urldecode_urlencode (s : string) : urldecode (urlencode s) = s.
Proof.
  unfold urldecode. induction s as [|c s IH]; [reflexivity|].
  cbn [urlencode]. by rewrite percent_decode_utf8, utf8_decode_utf8, IH.
Qed.

(** Reading a serialised record back gives the record: every name and every
    value, whatever characters it is made of, in order. *)
Lemma URLSearchParams_parse_toString (params : list (string * string)) :
  URLSearchParams_parse (URLSearchParams_toString params) = params.
Proof.
  unfold URLSearchParams_parse. rewrite query_entries_toString.
  induction params as [|[k v] params IH]; [reflexivity|].
  cbn [map fst snd]. by rewrite !urldecode_urlencode, IH.
Qed.

Lemma filter_kind_params (name : string) (params : list (string * string)) :
  Forall (λ p, p.1 ∈ ["asset"; "spender"; "listing"; "platform"; "chainId"])
    params →
  name ∉ ["asset"; "spender"; "listing"; "platform"; "chainId"] →
  filter (λ entry : string * string, entry.1 = name) params = [].
Proof.
  intros Hnames Hname. induction Hnames as [|p ps Hp _ IH]; [done|].
  rewrite filter_cons_False; [exact IH|]. by intros <-.
Qed.

(** X6. Every popup raised for a request names that request: whatever its
    kind and whatever characters the id is made of, the query string, read
    back as the popup page reads it, has exactly one requestId parameter,
    which is the request's id, and exactly one bypassed parameter, which is
    the request's bypass flag as a string; the popup is sized with the same
    flag. In the query string itself the id stands in its serialised form,
    which is the id as it is when it is made of letters, digits and [-],
    [_], [.], [*]. *)
Theorem popup_names_its_request `{Collaborators} (message : Message)
    (s : State) (q : string) (n : Z) (b : option bool) :
  (q, n, b) ∈ popups (events (createPopup message s)) →
  URLSearchParams_getAll "requestId" q = [requestId (envelope message)]
  ∧ URLSearchParams_getAll "bypassed" q
    = [String_of_bool (bypassed (envelope message))]
  ∧ b = bypassed (envelope message)
  ∧ (filter (λ entry, entry.1 = "requestId") (query_entries q)
     = [("requestId", urlencode (requestId (envelope message)))])
  ∧ (filter (λ entry, entry.1 = "bypassed") (query_entries q)
     = [("bypassed", String_of_bool (bypassed (envelope message)))])
  ∧ (form_safe_string (requestId (envelope message)) = true →
     urlencode (requestId (envelope message)) = requestId (envelope message)).
Proof.
  intros Hin.
  assert (∃ params,
            q = URLSearchParams_toString
                  (("type", params.1) :: ("requestId", requestId (envelope message))
                   :: params.2
                   ++ [("bypassed", String_of_bool (bypassed (envelope message)));
                       ("hostname", hostname (envelope message))])
            ∧ Forall (λ p, p.1 ∈ ["asset"; "spender"; "listing"; "platform"; "chainId"])
                params.2
            ∧ b = bypassed (envelope message)) as (params & -> & Hnames & ->).
  { destruct message as [e t|e t|e t|e ty t];
      cbn [createPopup envelope data_message] in *; try case_match.
    - destruct (createAllowancePopup_cases e (inl t) s)
        as [Hrun|(a & _ & _ & Hrun)]; rewrite Hrun in Hin;
        cbn -[allowance_query] in Hin; [by apply elem_of_nil in Hin|].
      apply list_elem_of_singleton in Hin. simplify_eq.
      exists (WarningType_ALLOWANCE,
              [("asset", asset a); ("spender", spender a);
               ("chainId", String_of_number (chainId e))]).
      split_and!; [reflexivity| |reflexivity].
      repeat constructor; cbn; set_solver.
    - destruct (createAllowancePopup_cases e (inr t) s)
        as [Hrun|(a & _ & _ & Hrun)]; rewrite Hrun in Hin;
        cbn -[allowance_query] in Hin; [by apply elem_of_nil in Hin|].
      apply list_elem_of_singleton in Hin. simplify_eq.
      exists (WarningType_ALLOWANCE,
              [("asset", asset a); ("spender", spender a);
               ("chainId", String_of_number (chainId e))]).
      split_and!; [reflexivity| |reflexivity].
      repeat constructor; cbn; set_solver.
    - destruct (createNftListingPopup_cases e t s)
        as [Hrun|(l & _ & _ & Hrun)]; rewrite Hrun in Hin;
        cbn -[listing_query] in Hin; [by apply elem_of_nil in Hin|].
      apply list_elem_of_singleton in Hin. simplify_eq.
      exists (WarningType_LISTING,
              [("listing", JSON_stringify l);
               ("platform", platform (decodeNftListing t));
               ("chainId", String_of_number (chainId e))]).
      split_and!; [reflexivity| |reflexivity].
      repeat constructor; cbn; set_solver.
    - destruct (createHashSignaturePopup_cases e (Some t) s)
        as [[Hrun _]|[Hrun _]]; rewrite Hrun in Hin;
        cbn -[hash_query] in Hin; [by apply elem_of_nil in Hin|].
      apply list_elem_of_singleton in Hin. simplify_eq.
      exists (WarningType_HASH, []). split_and!; [reflexivity|constructor|reflexivity].
    - destruct (createHashSignaturePopup_cases e t s)
        as [[Hrun _]|[Hrun _]]; rewrite Hrun in Hin;
        cbn -[hash_query] in Hin; [by apply elem_of_nil in Hin|].
      apply list_elem_of_singleton in Hin. simplify_eq.
      exists (WarningType_HASH, []). split_and!; [reflexivity|constructor|reflexivity]. }
  clear Hin. destruct params as [kind params]. cbn [fst snd] in *.
  assert ("requestId" ∉ ["asset"; "spender"; "listing"; "platform"; "chainId"])
    as Hid by (apply includes_false; vm_compute; reflexivity).
  assert ("bypassed" ∉ ["asset"; "spender"; "listing"; "platform"; "chainId"])
    as Hflag by (apply includes_false; vm_compute; reflexivity).
  unfold URLSearchParams_getAll.
  rewrite URLSearchParams_parse_toString, query_entries_toString.
  cbn [map fst snd]. rewrite map_app. cbn [map fst snd].
  rewrite String_of_bool_safe.
  change (urlencode "type") with "type".
  change (urlencode "requestId") with "requestId".
  change (urlencode "bypassed") with "bypassed".
  change (urlencode "hostname") with "hostname".
  split_and!; [| |reflexivity| | |apply urlencode_safe].
  - rewrite filter_cons_False by (cbn; discriminate).
    rewrite filter_cons_True by reflexivity.
    rewrite filter_app, (filter_kind_params _ _ Hnames Hid).
    rewrite !filter_cons_False by (cbn; discriminate). reflexivity.
  - rewrite !filter_cons_False by (cbn; discriminate).
    rewrite filter_app, (filter_kind_params _ _ Hnames Hflag).
    rewrite filter_cons_True by reflexivity.
    rewrite filter_cons_False by (cbn; discriminate). reflexivity.
  - rewrite filter_cons_False by (cbn; discriminate).
    rewrite filter_cons_True by reflexivity.
    rewrite filter_app, (filter_kind_entries _ _ Hnames Hid).
    rewrite !filter_cons_False by (cbn; discriminate). reflexivity.
  - rewrite !filter_cons_False by (cbn; discriminate).
    rewrite filter_app, (filter_kind_entries _ _ Hnames Hflag).
    rewrite filter_cons_True by reflexivity.
    rewrite filter_cons_False by (cbn; discriminate). reflexivity.
Qed.

(** ** Intake and the answers, together *)

(** X7. A request that is not bypassed is either answered [true] at once on
    its own port, with no popup and no change of state, or held: exactly one
    popup is raised, nothing is posted and the port is put in the table
    under the request's id. It is never both, and never neither. *)
Theorem intake_answers_or_holds `{Collaborators} (message : Message)
    (remotePort : Port) (s : State) :
  truthy (bypassed (envelope message)) = false →
  let id := requestId (envelope message) in
  let run := processMessage message remotePort s in
  (result (createPopup message s) = false
   ∧ events run
     = [PostMessage remotePort {| response_requestId := id; response_data := true |}]
   ∧ state_after run = s)
  ∨ (result (createPopup message s) = true
     ∧ deliveries (events run) = []
     ∧ length (popups (events run)) = 1%nat
     ∧ messagePorts (state_after run) = <[id := remotePort]> (messagePorts s)
     ∧ approvedMessages (state_after run) = approvedMessages s
     ∧ storage_local (state_after run) = storage_local s).
Proof.
  intros Hb id run. subst id run. rewrite processMessage_run, Hb.
  destruct (createPopup_outcomes message s) as [->|(q & n & name & ->)];
    cbn; [left|right]; done.
Qed.

(** X8. A held request that reuses the id of a request that is still
    waiting takes its place in the table: the answer then goes to the new
    port only. For an id other than "__proto__" the port that waited first
    gets no answer, whatever follows, as long as the id is not used a third
    time; under the id "__proto__" the new port stays in place and every
    further answer is posted to it again. *)
Theorem duplicate_registration_overwrites `{Collaborators} (message : Message)
    (remotePort waiting : Port) (s : State) :
  truthy (bypassed (envelope message)) = false →
  result (createPopup message s) = true →
  messagePorts s !! requestId (envelope message) = Some waiting →
  let id := requestId (envelope message) in
  let held := state_after (processMessage message remotePort s) in
  messagePorts held !! id = Some remotePort
  ∧ ∀ response later,
      response_requestId response = id →
      Forall (λ input, ¬ requests id input) later →
      let answered := state_after (onMessage response held) in
      deliveries (events (onMessage response held)) = [(remotePort, response)]
      ∧ (id ≠ "__proto__" →
         deliveries_for id (events (handleAll later answered)) = [])
      ∧ (id = "__proto__" →
         ∀ again, response_requestId again = id →
           deliveries (events (onMessage again answered)) = [(remotePort, again)]).
Proof.
  intros Hb Hprompt _ id held. subst id held.
  rewrite processMessage_run, Hb, Hprompt. cbn [state_after fst snd messagePorts].
  split; [by rewrite lookup_insert_eq|].
  intros response later Hid Hfresh. cbv zeta. split_and!.
  - rewrite onMessage_deliveries, Hid. cbn [messagePorts].
    by rewrite lookup_insert_eq.
  - intros Hordinary. apply handleAll_unregistered; [|exact Hfresh].
    rewrite onMessage_ports, Hid, delete_own_ordinary by done.
    apply lookup_delete_eq.
  - intros Hproto again Hagain.
    rewrite onMessage_deliveries, onMessage_ports, Hagain, Hid, Hproto.
    rewrite delete_own_proto. cbn [messagePorts].
    by rewrite lookup_insert_eq.
Qed.

(** X9. Holding a request and then answering it: when no port waited under
    the id, the answer of the popup is posted, as it is, on the port that
    sent the request and on no other. For an id other than "__proto__" this
    is a round trip on the table of waiting ports, which is again what it
    was before the request; under the id "__proto__" the port stays in the
    table. The approved list gains the id exactly when the answer
    approves. *)
Theorem hold_then_answer_round_trip `{Collaborators} (message : Message)
    (remotePort : Port) (response : MessageResponse) (s : State) :
  truthy (bypassed (envelope message)) = false →
  result (createPopup message s) = true →
  messagePorts s !! requestId (envelope message) = None →
  response_requestId response = requestId (envelope message) →
  let held := state_after (processMessage message remotePort s) in
  let answered := onMessage response held in
  deliveries (events answered) = [(remotePort, response)]
  ∧ (requestId (envelope message) ≠ "__proto__" →
     messagePorts (state_after answered) = messagePorts s)
  ∧ (requestId (envelope message) = "__proto__" →
     messagePorts (state_after answered)
     = <["__proto__" := remotePort]> (messagePorts s))
  ∧ approvedMessages (state_after answered)
    = approvedMessages s
      ++ (if response_data response then [requestId (envelope message)] else []).
Proof.
  intros Hb Hprompt Hfree Hid held answered. subst held answered.
  rewrite processMessage_run, Hb, Hprompt. cbn [state_after fst snd].
  rewrite onMessage_run, Hid. cbn [events state_after fst snd messagePorts
    approvedMessages].
  rewrite lookup_insert_eq. split_and!.
  - reflexivity.
  - intros Hordinary. rewrite delete_own_ordinary by done.
    by apply delete_insert_id.
  - intros ->. apply delete_own_proto.
  - destruct (response_data response); [reflexivity|by rewrite app_nil_r].
Qed.

(** A lookup that finds an inherited member finds no port. *)
Lemma messagePorts_get_port id ports :
  messagePorts_get id ports = FoundOther → ports !! id = None.
Proof. unfold messagePorts_get. by case_match. Qed.

(** X22. An answer for a request id other than "__proto__" is delivered at
    most once. When a port waits under the id, the answer is posted on that
    port, once, and the port is taken out of the table; when none waits,
    nothing is posted and the table is left as it is. Either way no port
    waits under the id afterwards: a second answer for the id posts nothing,
    and nothing more is posted for the id whatever the service receives
    later, other requests and answers included, as long as no new request
    uses the id. *)
Theorem answer_is_delivered_once `{Collaborators} (s : State)
    (response : MessageResponse) (later : list Input) :
  response_requestId response ≠ "__proto__" →
  let id := response_requestId response in
  let first := onMessage response s in
  let rest := handleAll later (state_after first) in
  (∀ port, messagePorts s !! id = Some port →
     deliveries (events first) = [(port, response)]
     ∧ messagePorts (state_after first) = delete id (messagePorts s))
  ∧ (messagePorts s !! id = None →
     deliveries (events first) = []
     ∧ messagePorts (state_after first) = messagePorts s)
  ∧ messagePorts (state_after first) !! id = None
  ∧ (∀ again, response_requestId again = id →
       deliveries (events (onMessage again (state_after first))) = [])
  ∧ (Forall (λ input, ¬ requests id input) later →
       deliveries_for id (events rest) = []
       ∧ (length (deliveries_for id (events first ++ events rest)) ≤ 1)%nat).
Proof.
  intros Hordinary id first rest. subst first rest.
  assert (messagePorts (state_after (onMessage response s))
          = delete id (messagePorts s)) as Hports
    by (rewrite onMessage_ports; by apply delete_own_ordinary).
  assert (messagePorts (state_after (onMessage response s)) !! id = None)
    as Hgone by (rewrite Hports; apply lookup_delete_eq).
  split_and!.
  - intros port Hport. split; [|exact Hports].
    rewrite onMessage_deliveries. fold id. by rewrite Hport.
  - intros Hfree. split.
    + rewrite onMessage_deliveries. fold id. by rewrite Hfree.
    + rewrite Hports. by apply delete_id.
  - exact Hgone.
  - intros again Hagain. rewrite onMessage_deliveries, Hagain. by rewrite Hgone.
  - intros Hfresh.
    pose proof (handleAll_unregistered id later _ Hgone Hfresh) as Hrest.
    split; [exact Hrest|].
    rewrite deliveries_for_app, Hrest, app_nil_r. unfold deliveries_for.
    rewrite onMessage_deliveries.
    destruct (messagePorts s !! response_requestId response); cbn; [|lia].
    rewrite decide_True by done. cbn. lia.
Qed.

(** X23. The listener records an approval before it delivers the answer:
    whatever the id and whatever the lookup finds, the telemetry event is
    sent first and an approving answer appends its id to the approved list,
    a rejecting one leaves the list as it is. That holds also when the
    delivery fails: for a name of [Object.prototype] under which no port
    waits the lookup finds a value that is not a port, line 52 throws, and
    the approval is recorded all the same, while nothing is posted and the
    table is left as it is. *)
Theorem approval_is_recorded_before_delivery (response : MessageResponse)
    (s : State) :
  let id := response_requestId response in
  let run := onMessage response s in
  approvedMessages (state_after run)
  = approvedMessages s ++ (if response_data response then [id] else [])
  ∧ storage_local (state_after run) = storage_local s
  ∧ head (events run) = Some (Track "Responded to request" id)
  ∧ tracked (events run) = ["Responded to request"]
  ∧ (messagePorts_get id (messagePorts s) = FoundOther →
     events run = [Track "Responded to request" id]
     ∧ messagePorts (state_after run) = messagePorts s)
  ∧ onMessage {| response_requestId := "constructor"; response_data := true |}
      initial_state
    = (tt,
       {| messagePorts := ∅; approvedMessages := ["constructor"];
          storage_local := ∅ |},
       [Track "Responded to request" "constructor"]).
Proof.
  intros id run. subst id run. rewrite onMessage_run.
  cbn [state_after events fst snd approvedMessages storage_local messagePorts head].
  split_and!; try reflexivity.
  - destruct (response_data response); [reflexivity|by rewrite app_nil_r].
  - by destruct (messagePorts s !! response_requestId response).
  - intros Hother%messagePorts_get_port. rewrite Hother. split; [reflexivity|].
    unfold delete_own. case_match; [done|by apply delete_id].
Qed.

(** X24. A port that was made the prototype of the table is never released:
    every answer given under the id "__proto__" is posted to that port,
    however many answers there are, and the port is still in place
    afterwards. *)
Theorem proto_port_is_never_released `{Collaborators}
    (answers : list MessageResponse) (port : Port) (s : State) :
  messagePorts s !! "__proto__" = Some port →
  Forall (λ answer, response_requestId answer = "__proto__") answers →
  let run := handleAll (map Answer answers) s in
  deliveries (events run) = map (λ answer, (port, answer)) answers
  ∧ messagePorts (state_after run) !! "__proto__" = Some port.
Proof.
  intros Hport Hids. cbv zeta. revert s Hport.
  induction Hids as [|answer answers Hid _ IH]; intros s Hport; [done|].
  cbn [map]. rewrite handleAll_cons. cbn [events state_after fst snd handle].
  assert (messagePorts (state_after (onMessage answer s)) !! "__proto__"
          = Some port) as Hkept
    by (by rewrite onMessage_ports, Hid, delete_own_proto).
  destruct (IH _ Hkept) as [Hlater Hstill]. split; [|exact Hstill].
  unfold deliveries. rewrite omap_app.
  fold (deliveries (events (onMessage answer s))).
  fold (deliveries (events (handleAll (map Answer answers)
                              (state_after (onMessage answer s))))).
  rewrite Hlater, onMessage_deliveries, Hid, Hport. reflexivity.
Qed.

Section Traffic.
Context `{Collaborators}.

(** What a run of the service does to the approved list and to the
    settings. *)
Lemma handleAll_state (inputs : list Input) (s : State) :
  approvedMessages (state_after (handleAll inputs s))
  = approvedMessages s ++ approvals inputs
  ∧ storage_local (state_after (handleAll inputs s)) = storage_local s.
Proof.
  revert s. induction inputs as [|input inputs IH]; intros s.
  - cbn. by rewrite app_nil_r.
  - rewrite handleAll_cons. cbn [state_after fst snd].
    destruct (IH (state_after (handle input s))) as [-> ->].
    destruct input as [message remotePort|response]; cbn [handle].
    + change (approvals (Incoming message remotePort :: inputs))
        with (approvals inputs).
      rewrite processMessage_run. cbn [state_after fst snd].
      by repeat case_match.
    + rewrite onMessage_run. cbn [state_after fst snd approvedMessages storage_local].
      unfold approvals at 2. cbn [omap list_omap]. fold (approvals inputs).
      destruct (response_data response); [|done].
      by rewrite <- app_assoc.
Qed.

(** Every message the service posts goes to a port that asked for it. *)
Lemma handleAll_deliveries (inputs : list Input) (s : State)
    (port : Port) (response : MessageResponse) :
  (port, response) ∈ deliveries (events (handleAll inputs s)) →
  (Answer response ∈ inputs
   ∧ (messagePorts s !! response_requestId response = Some port
      ∨ ∃ message,
          Incoming message port ∈ inputs
          ∧ requestId (envelope message) = response_requestId response))
  ∨ (∃ message,
       Incoming message port ∈ inputs
       ∧ truthy (bypassed (envelope message)) = false
       ∧ response = {| response_requestId := requestId (envelope message);
                       response_data := true |}).
Proof.
  revert s. induction inputs as [|input inputs IH]; intros s Hin.
  { by apply elem_of_nil in Hin. }
  rewrite handleAll_cons in Hin. cbn [events snd] in Hin.
  unfold deliveries in Hin. rewrite omap_app in Hin.
  apply elem_of_app in Hin as [Hnow|Hlater].
  - fold (deliveries (events (handle input s))) in Hnow.
    destruct input as [message remotePort|answer]; cbn [handle] in Hnow.
    + rewrite processMessage_run in Hnow. cbn [events snd] in Hnow.
      unfold deliveries in Hnow. rewrite omap_app in Hnow.
      fold (deliveries (events (createPopup message s))) in Hnow.
      rewrite createPopup_deliveries in Hnow. cbn [app] in Hnow.
      destruct (truthy (bypassed (envelope message))) eqn:Hb;
        [by apply elem_of_nil in Hnow|].
      destruct (result (createPopup message s));
        [by apply elem_of_nil in Hnow|].
      cbn in Hnow. apply list_elem_of_singleton in Hnow. simplify_eq.
      right. exists message. split_and!; [left|done|done].
    + rewrite onMessage_deliveries in Hnow.
      destruct (messagePorts s !! response_requestId answer) eqn:Hport;
        [|by apply elem_of_nil in Hnow].
      apply list_elem_of_singleton in Hnow. simplify_eq.
      left. split; [left|by left].
  - fold (deliveries (events (handleAll inputs (state_after (handle input s)))))
      in Hlater.
    destruct (IH _ Hlater) as [[Hanswer Hwho]|(message & Hm & Hb & ->)].
    + left. split; [by right|].
      destruct Hwho as [Hport|(message & Hm & Hid)];
        [|right; exists message; split; [by right|done]].
      destruct input as [message remotePort|answer]; cbn [handle] in Hport.
      * rewrite processMessage_run in Hport. cbn [state_after fst snd] in Hport.
        destruct (truthy (bypassed (envelope message))); [by left|].
        destruct (result (createPopup message s)); [|by left].
        cbn [messagePorts] in Hport.
        apply lookup_insert_Some in Hport as [[Hid <-]|[_ Hport]]; [|by left].
        right. exists message. split; [left|done].
      * rewrite onMessage_ports in Hport.
        apply lookup_delete_own_Some in Hport. by left.
    + right. exists message. split_and!; [by right|done|done].
Qed.

End Traffic.

(** X10. Over any run of the service the approved list only grows: it is the
    list at the start followed by the ids of the approving answers, in order
    of arrival. Requests, rejections and answers nobody waits for never
    shorten or reorder it, and the service never changes a setting. *)
Theorem approved_list_only_grows `{Collaborators} (inputs : list Input)
    (s : State) :
  let s' := state_after (handleAll inputs s) in
  approvedMessages s' = approvedMessages s ++ approvals inputs
  ∧ approvedMessages s `prefix_of` approvedMessages s'
  ∧ (∀ id, id ∈ approvedMessages s → id ∈ approvedMessages s')
  ∧ storage_local s' = storage_local s.
Proof.
  cbv zeta. destruct (handleAll_state inputs s) as [Happroved Hstorage].
  rewrite Happroved. split_and!; [done| |intros id Hid|done].
  - by exists (approvals inputs).
  - apply elem_of_app. by left.
Qed.

(** X11. Once the popup's answer has approved a request id, a request with
    that id is let through for as long as the service runs: whatever else
    arrives in between, the evaluation declines it without a popup, and a
    request that is not bypassed is answered [true] at once. *)
Theorem approval_silences_later_requests `{Collaborators}
    (inputs : list Input) (s : State) (message : Message) (remotePort : Port) :
  requestId (envelope message) ∈ approvals inputs →
  let s' := state_after (handleAll inputs s) in
  createPopup message s' = (false, s', [])
  ∧ processMessage message remotePort s'
    = (tt, s',
       if truthy (bypassed (envelope message)) then []
       else [PostMessage remotePort
               {| response_requestId := requestId (envelope message);
                  response_data := true |}]).
Proof.
  intros Hid s'.
  assert (createPopup message s' = (false, s', [])) as Hrun.
  { apply createPopup_approved. subst s'.
    destruct (handleAll_state inputs s) as [-> _].
    apply elem_of_app. by right. }
  split; [exact Hrun|].
  rewrite processMessage_run, Hrun. cbn [result events fst snd app].
  by destruct (truthy (bypassed (envelope message))).
Qed.

(** X12. A rejecting answer is not remembered: after it every request is
    evaluated exactly as before it, so that a request that was prompted is
    prompted again when the page retries it. *)
Theorem rejection_is_not_remembered `{Collaborators}
    (response : MessageResponse) (message : Message) (s : State) :
  response_data response = false →
  let s' := state_after (onMessage response s) in
  approvedMessages s' = approvedMessages s
  ∧ result (createPopup message s') = result (createPopup message s)
  ∧ events (createPopup message s') = events (createPopup message s).
Proof.
  intros Hdata s'. subst s'. rewrite onMessage_run, Hdata.
  cbn [state_after fst snd approvedMessages].
  change {| messagePorts := delete_own (response_requestId response) (messagePorts s);
            approvedMessages := approvedMessages s;
            storage_local := storage_local s |}
    with (with_messagePorts
            (delete_own (response_requestId response) (messagePorts s)) s).
  by rewrite createPopup_frame.
Qed.

(** X13. The service posts only to ports that asked. Every message posted
    during a run is either the answer of a popup, relayed as it is to a port
    that was waiting under the answer's id at the start or that sent a
    request with that id during the run, or the approval [true] sent at once
    to the port of a request that is not bypassed. In particular the service
    never produces a rejection of its own. *)
Theorem deliveries_go_to_requesters `{Collaborators} (inputs : list Input)
    (s : State) (port : Port) (response : MessageResponse) :
  (port, response) ∈ deliveries (events (handleAll inputs s)) →
  ((Answer response ∈ inputs
    ∧ (messagePorts s !! response_requestId response = Some port
       ∨ ∃ message,
           Incoming message port ∈ inputs
           ∧ requestId (envelope message) = response_requestId response))
   ∨ (∃ message,
        Incoming message port ∈ inputs
        ∧ truthy (bypassed (envelope message)) = false
        ∧ response = {| response_requestId := requestId (envelope message);
                        response_data := true |}))
  ∧ (response_data response = false → Answer response ∈ inputs).
Proof.
  intros Hin. pose proof (handleAll_deliveries inputs s port response Hin) as Hwho.
  split; [exact Hwho|].
  intros Hdata. destruct Hwho as [[Hanswer _]|(message & _ & _ & ->)];
    [exact Hanswer|discriminate].
Qed.

(** ** Where the popup is put (lines 189-197) *)

(** The two margins of the popup inside the reference window, in closed
    form. *)
Lemma getPopupPositions_offsets (window : Window) (contentLines : Z)
    (bypassed : option bool) :
  let p := getPopupPositions window contentLines bypassed in
  popup_width p = 480
  ∧ popup_height p = 320 + contentLines * 24 + (if truthy bypassed then 24 else 0)
  ∧ popup_left p = left window + (width window - 480 + 1) / 2
  ∧ popup_top p = top window + (2 * (height window - popup_height p) + 5) / 10.
Proof.
  cbv zeta. unfold getPopupPositions.
  cbn [popup_width popup_height popup_left popup_top].
  by rewrite Math_round_half, Math_round_fifth.
Qed.

(** X14. The popup is centred on the reference window: the free space on
    its left and the free space on its right differ by at most one pixel,
    the odd pixel going to the left; this holds for windows narrower than
    the popup too, where both are overhangs. *)
Theorem popup_is_centred (window : Window) (contentLines : Z)
    (bypassed : option bool) :
  let p := getPopupPositions window contentLines bypassed in
  let left_space := popup_left p - left window in
  let right_space :=
    (left window + width window) - (popup_left p + popup_width p) in
  left_space + right_space = width window - 480
  ∧ 0 ≤ left_space - right_space ≤ 1.
Proof.
  intros p left_space right_space. subst left_space right_space.
  destruct (getPopupPositions_offsets window contentLines bypassed)
    as (Hw & _ & Hl & _). fold p in Hw, Hl. rewrite Hw, Hl.
  pose proof (Z.div_mod (width window - 480 + 1) 2 ltac:(lia)).
  pose proof (Z.mod_pos_bound (width window - 480 + 1) 2 ltac:(lia)).
  lia.
Qed.

(** X15. When the reference window is at least as large as the popup, the
    popup lies inside it, and at least as much free space is left below it
    as above it: the popup sits in the upper part of the window. *)
Theorem popup_fits_in_large_window (window : Window) (contentLines : Z)
    (bypassed : option bool) :
  let p := getPopupPositions window contentLines bypassed in
  480 ≤ width window →
  popup_height p ≤ height window →
  left window ≤ popup_left p
  ∧ popup_left p + popup_width p ≤ left window + width window
  ∧ top window ≤ popup_top p
  ∧ popup_top p + popup_height p ≤ top window + height window
  ∧ popup_top p - top window
    ≤ (top window + height window) - (popup_top p + popup_height p).
Proof.
  intros p Hwide Hhigh.
  destruct (getPopupPositions_offsets window contentLines bypassed)
    as (Hw & _ & Hl & Ht). fold p in Hw, Hl, Ht, Hhigh. rewrite Hw, Hl, Ht.
  pose proof (Z.div_mod (width window - 480 + 1) 2 ltac:(lia)).
  pose proof (Z.mod_pos_bound (width window - 480 + 1) 2 ltac:(lia)).
  pose proof (Z.div_mod (2 * (height window - popup_height p) + 5) 10 ltac:(lia)).
  pose proof (Z.mod_pos_bound (2 * (height window - popup_height p) + 5) 10
                ltac:(lia)).
  lia.
Qed.

(** X16. When the reference window is narrower than the popup, the popup
    starts at or left of the window's left edge and ends right of its right
    edge; when it is lower than the popup, the popup starts at or above the
    window's top edge. The popup is never moved or shrunk to fit. *)
Theorem popup_overhangs_small_window (window : Window) (contentLines : Z)
    (bypassed : option bool) :
  let p := getPopupPositions window contentLines bypassed in
  (width window < 480 →
     popup_left p ≤ left window
     ∧ left window + width window < popup_left p + popup_width p)
  ∧ (height window < popup_height p →
     popup_top p ≤ top window
     ∧ top window + height window < popup_top p + popup_height p).
Proof.
  intros p.
  destruct (getPopupPositions_offsets window contentLines bypassed)
    as (Hw & _ & Hl & Ht). fold p in Hw, Hl, Ht. rewrite Hw, Hl, Ht.
  pose proof (Z.div_mod (width window - 480 + 1) 2 ltac:(lia)).
  pose proof (Z.mod_pos_bound (width window - 480 + 1) 2 ltac:(lia)).
  pose proof (Z.div_mod (2 * (height window - popup_height p) + 5) 10 ltac:(lia)).
  pose proof (Z.mod_pos_bound (2 * (height window - popup_height p) + 5) 10
                ltac:(lia)).
  split; intros; lia.
Qed.

(** X17. The content of the popup only changes its height and its top edge:
    more content lines, or the bypass notice, make the popup taller by 24
    pixels each, never move it sideways, and never move its top edge down;
    the top edge rises by a fifth of the added height, to the nearest
    pixel. *)
Theorem popup_grows_upwards (window : Window) (lines more : Z)
    (bypassed : option bool) :
  0 ≤ more →
  let p := getPopupPositions window lines bypassed in
  let p' := getPopupPositions window (lines + more) bypassed in
  let notice := getPopupPositions window lines (Some true) in
  let plain := getPopupPositions window lines (Some false) in
  popup_height p' = popup_height p + 24 * more
  ∧ popup_left p' = popup_left p
  ∧ popup_width p' = popup_width p
  ∧ popup_top p' ≤ popup_top p
  ∧ 5 * (popup_top p - popup_top p') - 4 ≤ 24 * more
  ∧ 24 * more ≤ 5 * (popup_top p - popup_top p') + 4
  ∧ popup_height notice = popup_height plain + 24
  ∧ popup_top plain - 5 ≤ popup_top notice ≤ popup_top plain - 4.
Proof.
  intros Hmore p p' notice plain.
  destruct (getPopupPositions_offsets window lines bypassed)
    as (Hw & Hh & Hl & Ht). fold p in Hw, Hh, Hl, Ht.
  destruct (getPopupPositions_offsets window (lines + more) bypassed)
    as (Hw' & Hh' & Hl' & Ht'). fold p' in Hw', Hh', Hl', Ht'.
  destruct (getPopupPositions_offsets window lines (Some true))
    as (_ & Hhn & _ & Htn). fold notice in Hhn, Htn.
  destruct (getPopupPositions_offsets window lines (Some false))
    as (_ & Hhp & _ & Htp). fold plain in Hhp, Htp.
  change (truthy (Some true)) with true in Hhn.
  change (truthy (Some false)) with false in Hhp.
  cbv iota in Hhn, Hhp.
  pose proof (Z.div_mod (2 * (height window - popup_height p) + 5) 10 ltac:(lia)).
  pose proof (Z.mod_pos_bound (2 * (height window - popup_height p) + 5) 10
                ltac:(lia)).
  pose proof (Z.div_mod (2 * (height window - popup_height p') + 5) 10 ltac:(lia)).
  pose proof (Z.mod_pos_bound (2 * (height window - popup_height p') + 5) 10
                ltac:(lia)).
  pose proof (Z.div_mod (2 * (height window - popup_height notice) + 5) 10
                ltac:(lia)).
  pose proof (Z.mod_pos_bound (2 * (height window - popup_height notice) + 5) 10
                ltac:(lia)).
  pose proof (Z.div_mod (2 * (height window - popup_height plain) + 5) 10
                ltac:(lia)).
  pose proof (Z.mod_pos_bound (2 * (height window - popup_height plain) + 5) 10
                ltac:(lia)).
  split_and!; lia.
Qed.

(** ** lib/utils/misc.ts *)

Ltac div_lia := zify; Z.to_euclidean_division_equations; lia.

Lemma toString16_go_more (fuel : nat) (n : N) (acc : string) :
  (16 ≤ n)%N →
  toString16_go (S fuel) n acc
  = toString16_go fuel (n / 16) (String (hex_digit_lower (n mod 16)) acc).
Proof.
  intros Hn. cbn [toString16_go].
  by assert ((n <? 16)%N = false) as -> by (apply N.ltb_ge; lia).
Qed.

Lemma toString16_go_last (fuel : nat) (n : N) (acc : string) :
  (n < 16)%N →
  toString16_go (S fuel) n acc = String (hex_digit_lower (n mod 16)) acc.
Proof.
  intros Hn. cbn [toString16_go].
  by assert ((n <? 16)%N = true) as -> by (apply N.ltb_lt; lia).
Qed.

(** A number of five hexadecimal digits is written with these digits. *)
Lemma Number_toString16_5_digits (x : N) :
  (65536 ≤ x < 1048576)%N →
  Number_toString16 x
  = String (hex_digit_lower (x / 65536))
      (String (hex_digit_lower (x / 4096 mod 16))
         (String (hex_digit_lower (x / 256 mod 16))
            (String (hex_digit_lower (x / 16 mod 16))
               (String (hex_digit_lower (x mod 16)) EmptyString)))).
Proof.
  intros Hx. unfold Number_toString16.
  assert (16 ≤ N.log2 x)%N as Hlog
    by (change 16%N with (N.log2 65536); apply N.log2_le_mono; lia).
  assert (∃ fuel, N.to_nat (N.log2 x) = (4 + fuel)%nat) as [fuel ->]
    by (exists (N.to_nat (N.log2 x) - 4)%nat; lia).
  cbn [Nat.add].
  rewrite !toString16_go_more by div_lia.
  rewrite toString16_go_last by div_lia.
  assert (x / 16 / 16 / 16 / 16 mod 16 = x / 65536)%N as -> by div_lia.
  assert (x / 16 / 16 / 16 mod 16 = x / 4096 mod 16)%N as -> by div_lia.
  assert (x / 16 / 16 mod 16 = x / 256 mod 16)%N as -> by div_lia.
  reflexivity.
Qed.

Lemma hex_digit_lower_is_hex (n : N) :
  occurs (hex_digit_lower n) "0123456789abcdef" = true.
Proof.
  unfold hex_digit_lower. generalize (N.to_nat n). intros i.
  do 16 (destruct i as [|i]; [reflexivity|]). reflexivity.
Qed.

Lemma hex_value_digit (n : N) :
  (n < 16)%N → hex_value (hex_digit_lower n) = n.
Proof.
  intros Hn. destruct n as [|p]; [reflexivity|].
  do 4 (destruct p as [p|p|]; try reflexivity; try lia).
Qed.

(** Rounding takes a number to its floor or to the integer above, and
    leaves an integer where it is. *)
Lemma round_half_even_near (x : Q) :
  (round_half_even x = Qfloor x ∨ round_half_even x = Qfloor x + 1)
  ∧ (Qnum x mod Z.pos (Qden x) = 0 → round_half_even x = Qfloor x).
Proof.
  unfold round_half_even. split.
  - destruct (_ ?= _)%Q; [destruct (Z.even _)|..]; auto.
  - intros Hmod.
    assert ((x - inject_Z (Qfloor x) ?= 1 # 2)%Q = Lt) as ->; [|done].
    destruct x as [p q].
    unfold Qcompare, Qminus, Qplus, Qopp, inject_Z, Qfloor in *.
    cbn [Qnum Qden] in *. rewrite Pos.mul_1_r.
    apply Z.compare_lt_iff.
    pose proof (Z.div_mod p (Z.pos q) ltac:(lia)) as Hdiv.
    rewrite Hmod in Hdiv. lia.
Qed.

(** The number that [s4] writes in base sixteen: the rounded sum, cut after
    sixteen binary places. It is [65536 + floor (random * 65536)], or one
    more when the rounding of the sum carries that far. *)
Lemma floor_double_one_plus (random : Q) :
  (0 <= random)%Q → (random <= 1)%Q →
  let k := round_half_even ((1 + random) * (4503599627370496 # 1))%Q in
  let y := Qfloor (random * (65536 # 1))%Q in
  Qfloor (double_one_plus random * (65536 # 1))%Q = k / 68719476736
  ∧ 0 ≤ y ≤ 65536
  ∧ ((random < 1)%Q → y < 65536)
  ∧ (k / 68719476736 = 65536 + y ∨ k / 68719476736 = 65536 + y + 1)
  ∧ 65536 ≤ k / 68719476736 ≤ 131072
  ∧ (∀ m : Z, (random == m # 4503599627370496)%Q → k / 68719476736 = 65536 + y).
Proof.
  intros Hlow Hhigh k y.
  assert (Qfloor (double_one_plus random * (65536 # 1))%Q = k / 68719476736)
    as Hfloor.
  { unfold double_one_plus. fold k. unfold Qfloor, Qmult. cbn [Qnum Qden].
    change (Z.pos (4503599627370496 * 1)) with (68719476736 * 65536).
    apply Z.div_mul_cancel_r; lia. }
  destruct (round_half_even_near ((1 + random) * (4503599627370496 # 1))%Q)
    as [Hnear Hexact].
  fold k in Hnear, Hexact. clearbody k.
  destruct random as [n d]. unfold Qle, Qlt, Qeq in *. subst y.
  unfold Qfloor, Qmult, Qplus in *. cbn [Qnum Qden] in *.
  rewrite ?Pos.mul_1_l, ?Pos.mul_1_r in *.
  set (D := Z.pos d) in *. assert (0 < D) as HD by (subst D; lia).
  set (a := (1 * D + n * 1) * 4503599627370496 / D) in *.
  assert (a / 68719476736 = 65536 + n * 65536 / D) as Ha.
  { subst a. rewrite Z.div_div by lia.
    replace ((1 * D + n * 1) * 4503599627370496)
      with ((65536 * D + n * 65536) * 68719476736) by lia.
    rewrite Z.div_mul_cancel_r by lia.
    by rewrite Z.div_add_l by lia. }
  assert (4503599627370496 ≤ a ≤ 9007199254740992) as Hrange.
  { subst a. split.
    - apply Z.div_le_lower_bound; nia.
    - apply Z.div_le_upper_bound; nia. }
  assert (0 ≤ n * 65536 / D ≤ 65536) as Hy.
  { split; [apply Z.div_pos; lia | apply Z.div_le_upper_bound; lia]. }
  split_and!; [exact Hfloor | lia | lia | | | | |].
  - intros Hless. apply Z.div_lt_upper_bound; lia.
  - destruct Hnear as [->| ->]; [by left|].
    revert Ha. generalize (n * 65536 / D). intros y Ha.
    clear -Ha. Z.to_euclidean_division_equations. lia.
  - destruct Hnear as [->| ->]; clear -Hrange;
      Z.to_euclidean_division_equations; lia.
  - destruct Hnear as [->| ->]; clear -Hrange;
      Z.to_euclidean_division_equations; lia.
  - intros m Hm. rewrite Hexact; [exact Ha|].
    replace ((1 * D + n * 1) * 4503599627370496)
      with ((4503599627370496 + m) * D) by lia.
    apply Z.mod_mul. lia.
Qed.

(** What [s4] returns, digit by digit. *)
Lemma s4_digits (random : Q) :
  (0 <= random)%Q → (random <= 1)%Q →
  let x := Z.to_N (round_half_even ((1 + random) * (4503599627370496 # 1))%Q
                   / 68719476736) in
  (65536 ≤ x ≤ 131072)%N
  ∧ s4 random
    = String (hex_digit_lower (x / 4096 mod 16))
        (String (hex_digit_lower (x / 256 mod 16))
           (String (hex_digit_lower (x / 16 mod 16))
              (String (hex_digit_lower (x mod 16)) EmptyString))).
Proof.
  intros Hlow Hhigh x.
  destruct (floor_double_one_plus random Hlow Hhigh)
    as (Hfloor & _ & _ & _ & Hrange & _).
  assert (65536 ≤ x ≤ 131072)%N as Hx by (subst x; lia).
  split; [exact Hx|].
  unfold s4. rewrite Hfloor. fold x.
  rewrite Number_toString16_5_digits by lia. reflexivity.
Qed.

(** The number that four hexadecimal digits write. *)
Lemma parse_hex_digits (x : N) :
  parse_hex
    (String (hex_digit_lower (x / 4096 mod 16))
       (String (hex_digit_lower (x / 256 mod 16))
          (String (hex_digit_lower (x / 16 mod 16))
             (String (hex_digit_lower (x mod 16)) EmptyString))))
  = (x mod 65536)%N.
Proof.
  unfold parse_hex. cbn [list_ascii_of_string foldl].
  rewrite !hex_value_digit by div_lia. div_lia.
Qed.

(** X18. For every number that [Math.random()] returns, [s4] is exactly four
    lower-case hexadecimal digits, written with their leading zeros: the
    sixteen binary places of the sum [1 + random] as a double holds it. They
    are the sixteen low bits of [floor (random * 65536)], or of the next
    integer when the rounding of the sum carries that far; when the sum
    needs no rounding, as for a multiple of 2^-52, they are
    [floor (random * 65536)] itself. *)
Theorem s4_is_four_hex_digits (random : Q) :
  (0 <= random)%Q → (random <= 1)%Q →
  let y := Z.to_N (Qfloor (random * (65536 # 1))%Q) in
  String.length (s4 random) = 4%nat
  ∧ all_hex_lower (s4 random) = true
  ∧ parse_hex (s4 random)
    = (Z.to_N (round_half_even ((1 + random) * (4503599627370496 # 1))%Q
               / 68719476736) mod 65536)%N
  ∧ (parse_hex (s4 random) = (y mod 65536)%N
     ∨ parse_hex (s4 random) = ((y + 1) mod 65536)%N)
  ∧ (∀ m : Z, (random == m # 4503599627370496)%Q →
       parse_hex (s4 random) = (y mod 65536)%N
       ∧ ((random < 1)%Q → parse_hex (s4 random) = y)).
Proof.
  intros Hlow Hhigh y.
  destruct (s4_digits random Hlow Hhigh) as (_ & ->).
  destruct (floor_double_one_plus random Hlow Hhigh)
    as (_ & Hy & Hless & Hnear & _ & Hexact).
  rewrite parse_hex_digits.
  set (k := round_half_even ((1 + random) * (4503599627370496 # 1))%Q) in *.
  fold y.
  split_and!; [reflexivity| |reflexivity| |].
  - cbn [all_hex_lower]. by rewrite !hex_digit_lower_is_hex.
  - destruct Hnear as [->| ->]; [left|right]; subst y; div_lia.
  - intros m Hm. rewrite (Hexact m Hm). split.
    + subst y. div_lia.
    + intros Hlt. specialize (Hless Hlt). subst y. div_lia.
Qed.

(** X18 on the number 0.5 - 2^-53: the sum rounds up to 1.5 and [s4] writes
    8000, where [floor (random * 65536)] is 7fff; on a quarter, which needs
    no rounding, it writes 4000. *)
Lemma s4_is_four_hex_digits_witness :
  String.length (s4 (4503599627370495 # 9007199254740992)) = 4%nat
  ∧ parse_hex (s4 (4503599627370495 # 9007199254740992)) = 32768%N
  ∧ Z.to_N (Qfloor ((4503599627370495 # 9007199254740992) * (65536 # 1))%Q)
    = 32767%N
  ∧ parse_hex (s4 (1 # 4)) = 16384%N.
Proof.
  destruct (s4_is_four_hex_digits (4503599627370495 # 9007199254740992))
    as (Hlen & _ & Hvalue & _); [discriminate | discriminate |].
  destruct (s4_is_four_hex_digits (1 # 4))
    as (_ & _ & _ & _ & Hexact); [discriminate | discriminate |].
  destruct (Hexact 1125899906842624 eq_refl) as [_ Hquarter].
  split_and!; [exact Hlen | exact Hvalue | reflexivity | exact (Hquarter eq_refl)].
Defined.

Lemma length_append (a b : string) :
  String.length (a +:+ b) = (String.length a + String.length b)%nat.
Proof. induction a as [|c a IH]; [done|]. rewrite append_cons. cbn. by rewrite IH. Qed.

Lemma append_assoc (a b c : string) :
  (a +:+ b) +:+ c = a +:+ (b +:+ c).
Proof. induction a as [|x a IH]; [done|]. rewrite !append_cons. by rewrite IH. Qed.

Lemma all_hex_lower_append (a b : string) :
  all_hex_lower (a +:+ b) = all_hex_lower a && all_hex_lower b.
Proof.
  induction a as [|c a IH]; [done|].
  rewrite append_cons. cbn [all_hex_lower]. by rewrite IH, andb_assoc.
Qed.

Lemma all_hex_lower_plain (sep : ascii) (s : string) :
  all_hex_lower s = true →
  occurs sep "0123456789abcdef" = false →
  occurs sep s = false.
Proof.
  intros Hs Hsep. induction s as [|c s IH]; [done|].
  cbn [all_hex_lower] in Hs. apply andb_true_iff in Hs as [Hc Hs].
  cbn [occurs]. rewrite (IH Hs), orb_false_r.
  apply Ascii.eqb_neq. intros ->. congruence.
Qed.

Lemma all_hex_lower_safe (s : string) :
  all_hex_lower s = true → form_safe_string s = true.
Proof.
  induction s as [|c s IH]; [done|].
  cbn [all_hex_lower form_safe_string]. intros [Hc Hs]%andb_true_iff.
  rewrite (IH Hs), andb_true_r.
  cbn [occurs] in Hc. rewrite !orb_true_iff in Hc.
  repeat (destruct Hc as [Hc|Hc];
          [apply Ascii.eqb_eq in Hc; by rewrite <- Hc|]).
  discriminate.
Qed.

Lemma form_safe_string_append (a b : string) :
  form_safe_string (a +:+ b) = form_safe_string a && form_safe_string b.
Proof.
  induction a as [|c a IH]; [done|].
  rewrite append_cons. cbn [form_safe_string]. by rewrite IH, andb_assoc.
Qed.

(** Each of the eight pieces of a random id is four hexadecimal digits. *)
Lemma s4_shape (random : Q) :
  (0 <= random)%Q ∧ (random <= 1)%Q →
  String.length (s4 random) = 4%nat ∧ all_hex_lower (s4 random) = true.
Proof.
  intros [Hlow Hhigh]. destruct (s4_digits random Hlow Hhigh) as (_ & ->).
  split; [reflexivity|].
  cbn [all_hex_lower]. by rewrite !hex_digit_lower_is_hex.
Qed.

(** The groups of a random id. *)
Lemma randomId_uuid_shaped (random : nat → Q) :
  (∀ n, (0 <= random n)%Q ∧ (random n <= 1)%Q) →
  uuid_shaped (randomId random) = true.
Proof.
  intros Hrandom.
  assert (occurs "-" "0123456789abcdef" = false) as Hhyphen by reflexivity.
  unfold randomId.
  destruct (s4_shape _ (Hrandom 0%nat)) as [La Ha],
    (s4_shape _ (Hrandom 1%nat)) as [Lb Hb],
    (s4_shape _ (Hrandom 2%nat)) as [Lc Hc],
    (s4_shape _ (Hrandom 3%nat)) as [Ld Hd],
    (s4_shape _ (Hrandom 4%nat)) as [Le He],
    (s4_shape _ (Hrandom 5%nat)) as [Lf Hf],
    (s4_shape _ (Hrandom 6%nat)) as [Lg Hg],
    (s4_shape _ (Hrandom 7%nat)) as [Lh Hh].
  revert La Ha Lb Hb Lc Hc Ld Hd Le He Lf Hf Lg Hg Lh Hh.
  generalize (s4 (random 0%nat)) (s4 (random 1%nat)) (s4 (random 2%nat))
    (s4 (random 3%nat)) (s4 (random 4%nat)) (s4 (random 5%nat))
    (s4 (random 6%nat)) (s4 (random 7%nat)).
  intros a b c d e f g h La Ha Lb Hb Lc Hc Ld Hd Le He Lf Hf Lg Hg Lh Hh.
  assert (split_on "-"
            (a +:+ b +:+ "-" +:+ c +:+ "-" +:+ d +:+ "-" +:+ e +:+ "-"
             +:+ f +:+ g +:+ h)
          = [a +:+ b; c; d; e; f +:+ g +:+ h]) as Hsplit.
  { replace (a +:+ b +:+ "-" +:+ c +:+ "-" +:+ d +:+ "-" +:+ e +:+ "-"
             +:+ f +:+ g +:+ h)
      with ((a +:+ b) +:+ String "-" (c +:+ String "-" (d +:+ String "-"
              (e +:+ String "-" (f +:+ g +:+ h)))))
      by (rewrite append_assoc; reflexivity).
    rewrite !split_on_piece, split_on_whole; try reflexivity;
      rewrite ?occurs_app; rewrite ?(all_hex_lower_plain "-"); done. }
  unfold uuid_shaped. rewrite Hsplit. cbn [map forallb].
  rewrite !length_append, La, Lb, Lc, Ld, Le, Lf, Lg, Lh.
  rewrite !all_hex_lower_append, Ha, Hb, Hc, Hd, He, Hf, Hg, Hh. reflexivity.
Qed.

(** X19. For every run of [Math.random()], [randomId] has the shape the
    comment in the code promises: 36 characters, made of five groups of 8,
    4, 4, 4 and 12 lower-case hexadecimal digits with a hyphen between two
    groups. Such an id needs no encoding in a query string. *)
Theorem randomId_is_uuid_shaped (random : nat → Q) :
  (∀ n, (0 <= random n)%Q ∧ (random n <= 1)%Q) →
  String.length (randomId random) = 36%nat
  ∧ uuid_shaped (randomId random) = true
  ∧ form_safe_string (randomId random) = true.
Proof.
  intros Hrandom.
  split_and!; [|by apply randomId_uuid_shaped|]; unfold randomId.
  - rewrite !length_append.
    rewrite !(proj1 (s4_shape _ (Hrandom _))). reflexivity.
  - rewrite !form_safe_string_append.
    rewrite !(all_hex_lower_safe _ (proj2 (s4_shape _ (Hrandom _)))).
    reflexivity.
Qed.

Lemma randomId_is_uuid_shaped_witness :
  String.length (randomId (λ _, (1 # 3)%Q)) = 36%nat
  ∧ uuid_shaped (randomId (λ _, (1 # 3)%Q)) = true.
Proof.
  destruct (randomId_is_uuid_shaped (λ _, (1 # 3)%Q)) as (Hlen & Hshape & _).
  - intros _. split; discriminate.
  - split; [exact Hlen | exact Hshape].
Defined.

(** ** The start of the service (lines 17-27) *)

Lemma randomId_not_empty (random : nat → Q) : randomId random ≠ EmptyString.
Proof.
  intros Hempty.
  assert (String.length (randomId random) = 0%nat) as Hlen by (by rewrite Hempty).
  unfold randomId in Hlen. rewrite !length_append in Hlen. cbn in Hlen. lia.
Qed.

Lemma falsy_key (key : string) : key ≠ EmptyString → falsy (Some key) = false.
Proof. intros Hkey. cbn. by apply bool_decide_eq_false. Qed.

(** X20. Starting the service with an API key leaves exactly one user id in
    the synchronised storage, the one it gives to the analytics library, and
    touches no other key; starting it again, with whatever random numbers,
    changes nothing and gives the library the same id. Without a key the
    start does nothing. *)
Theorem start_keeps_one_user_id (key : string) (random random' : nat → Q)
    (sync : gmap string string) :
  key ≠ EmptyString →
  let first := start (Some key) random sync in
  (∃ id,
     first.2 = [Init key id]
     ∧ first.1 !! "user:id" = Some id
     ∧ (∀ k, k ≠ "user:id" → first.1 !! k = sync !! k)
     ∧ start (Some key) random' first.1 = (first.1, [Init key id]))
  ∧ start None random sync = (sync, [])
  ∧ start (Some EmptyString) random sync = (sync, []).
Proof.
  intros Hkey first. subst first. split; [|done].
  unfold start. rewrite (falsy_key key Hkey). cbn [default from_option id].
  unfold initialiseAmplitude.
  destruct (sync !! "user:id") as [stored|] eqn:Hstored.
  - exists stored. cbn [fst snd falsy].
    destruct (bool_decide (stored = EmptyString)) eqn:Hempty.
    + rewrite lookup_insert_eq. cbn [falsy]. rewrite Hempty.
      split_and!; [done|done| |by rewrite insert_insert_eq].
      intros k Hk. by rewrite lookup_insert_ne.
    + rewrite Hstored. cbn [falsy]. rewrite Hempty. done.
  - exists (randomId random). cbn [fst snd falsy].
    rewrite lookup_insert_eq. cbn [falsy].
    rewrite (bool_decide_eq_false_2 _ (randomId_not_empty random)).
    split_and!; [done|done| |done].
    intros k Hk. by rewrite lookup_insert_ne.
Qed.

Lemma start_keeps_one_user_id_witness :
  (start (Some "key") demo_random ∅).2
  = [Init "key" "00001999-3333-4ccc-6666-80009999b333"]
  ∧ start (Some "key") (λ _, (1 # 3)%Q) (start (Some "key") demo_random ∅).1
    = ((start (Some "key") demo_random ∅).1,
       [Init "key" "00001999-3333-4ccc-6666-80009999b333"]).
Proof.
  destruct (start_keeps_one_user_id "key" demo_random (λ _, (1 # 3)%Q) ∅)
    as [(id & Hcalls & _ & _ & Hagain) _]; [discriminate|].
  assert (id = "00001999-3333-4ccc-6666-80009999b333") as ->.
  { vm_compute in Hcalls. by injection Hcalls. }
  split; [exact Hcalls | exact Hagain].
Defined.

(** X21. The user id is generated only when none is stored: a stored id,
    even an empty one, is given to the analytics library as it is and the
    storage keeps its content; on a fresh storage the id given to the
    library and stored is a new one of the UUID shape. *)
Theorem start_uses_stored_or_fresh_id (key : string) (random : nat → Q)
    (sync : gmap string string) :
  key ≠ EmptyString →
  (∀ n, (0 <= random n)%Q ∧ (random n <= 1)%Q) →
  (∀ id, sync !! "user:id" = Some id →
     start (Some key) random sync = (sync, [Init key id]))
  ∧ (sync !! "user:id" = None →
     start (Some key) random sync
     = (<["user:id" := randomId random]> sync, [Init key (randomId random)])
     ∧ uuid_shaped (randomId random) = true).
Proof.
  intros Hkey Hrandom.
  unfold start. rewrite (falsy_key key Hkey). cbn [default from_option id].
  unfold initialiseAmplitude. split.
  - intros stored Hstored. rewrite Hstored. cbn [falsy].
    destruct (bool_decide (stored = EmptyString)); [|done].
    by rewrite insert_id.
  - intros ->. cbn [falsy]. split; [done|].
    by apply randomId_uuid_shaped.
Qed.

Lemma start_uses_stored_or_fresh_id_witness :
  start (Some "key") (λ _, (1 # 3)%Q) {["user:id" := EmptyString]}
  = ({["user:id" := EmptyString]}, [Init "key" EmptyString])
  ∧ start (Some "key") (λ _, (1 # 3)%Q) ∅
    = ({["user:id" := "55555555-5555-5555-5555-555555555555"]},
       [Init "key" "55555555-5555-5555-5555-555555555555"]).
Proof.
  split.
  - destruct (start_uses_stored_or_fresh_id "key" (λ _, (1 # 3)%Q)
                {["user:id" := EmptyString]}) as [Hstored _];
      [discriminate | intros _; split; discriminate |].
    exact (Hstored EmptyString eq_refl).
  - destruct (start_uses_stored_or_fresh_id "key" (λ _, (1 # 3)%Q) ∅)
      as [_ Hfresh];
      [discriminate | intros _; split; discriminate |].
    destruct (Hfresh eq_refl) as [Hrun _]. exact Hrun.
Defined.

(** ** The further properties on concrete requests *)

Lemma gated_request_passes_witness :
  @processMessage _ demo_collaborators (demo_hash None) 7%nat quiet_state
  = (tt, quiet_state,
     [PostMessage 7%nat {| response_requestId := "r1"; response_data := true |}]).
Proof.
  apply (@gated_request_passes _ demo_collaborators (demo_hash None) 7%nat
           quiet_state).
  left. vm_compute. reflexivity.
Defined.

(** X6 on an approval whose request id has a space, an ampersand and an
    equals sign: the popup page reads the id back as it was sent. *)
Lemma popup_names_its_request_witness :
  let q := "type=allowance&requestId=a+b%26c%3Dd&asset=0xA0b8&spender=0x1111&chainId=1&bypassed=true&hostname=example.org" in
  popups (events (@createPopup _ demo_collaborators demo_odd_approve initial_state))
  = [(q, 2, Some true)]
  ∧ URLSearchParams_getAll "requestId" q = ["a b&c=d"]
  ∧ URLSearchParams_getAll "bypassed" q = ["true"].
Proof.
  intros q.
  assert (popups (events (@createPopup _ demo_collaborators demo_odd_approve
                            initial_state)) = [(q, 2, Some true)]) as Hpopups
    by (vm_compute; reflexivity).
  destruct (@popup_names_its_request _ demo_collaborators demo_odd_approve
              initial_state q 2 (Some true)) as (Hid & Hflag & _).
  - rewrite Hpopups. apply list_elem_of_singleton. reflexivity.
  - split_and!; [exact Hpopups | exact Hid | exact Hflag].
Defined.

Lemma intake_answers_or_holds_witness :
  let run := @processMessage _ demo_collaborators (demo_hash None) 7%nat
               initial_state in
  deliveries (events run) = []
  ∧ length (popups (events run)) = 1%nat
  ∧ messagePorts (state_after run) !! "r1" = Some 7%nat.
Proof.
  intros run.
  destruct (@intake_answers_or_holds _ demo_collaborators (demo_hash None) 7%nat
              initial_state eq_refl)
    as [(Hno & _)|(_ & Hnone & Hone & Hports & _)]; [discriminate|].
  fold run in Hnone, Hone, Hports.
  split_and!; [exact Hnone | exact Hone |].
  rewrite Hports. apply lookup_insert_eq.
Defined.

(** X8 on the waiting service: a second request "r1", from port 9, takes
    the place of port 7; the rejection goes to port 9 and a repeated
    rejection to nobody. *)
Lemma duplicate_registration_overwrites_witness :
  let held := state_after (@processMessage _ demo_collaborators
                             (demo_hash None) 9%nat waiting_state) in
  let response := {| response_requestId := "r1"; response_data := false |} in
  messagePorts waiting_state !! "r1" = Some 7%nat
  ∧ messagePorts held !! "r1" = Some 9%nat
  ∧ deliveries (events (onMessage response held)) = [(9%nat, response)]
  ∧ deliveries_for "r1"
      (events (@handleAll _ demo_collaborators [Answer response]
                 (state_after (onMessage response held)))) = [].
Proof.
  intros held response.
  assert (messagePorts waiting_state !! "r1" = Some 7%nat) as Hwaiting
    by (vm_compute; reflexivity).
  destruct (@duplicate_registration_overwrites _ demo_collaborators
              (demo_hash None) 9%nat 7%nat waiting_state eq_refl eq_refl Hwaiting)
    as [Hheld Hanswer].
  assert (Forall (λ input, ¬ @requests demo_payloads "r1" input)
            [@Answer demo_payloads response]) as Hfresh
    by (repeat constructor; cbn; tauto).
  destruct (Hanswer response [Answer response] eq_refl Hfresh)
    as (Hdelivered & Hnone & _).
  split_and!; [exact Hwaiting | exact Hheld | exact Hdelivered |].
  apply Hnone. discriminate.
Defined.

(** X9 on a fresh service: request "r1" from port 7 is held and approved,
    and the table is empty again. *)
Lemma hold_then_answer_round_trip_witness :
  let response := {| response_requestId := "r1"; response_data := true |} in
  let held := state_after (@processMessage _ demo_collaborators
                             (demo_hash None) 7%nat initial_state) in
  let answered := onMessage response held in
  deliveries (events answered) = [(7%nat, response)]
  ∧ messagePorts (state_after answered) = messagePorts initial_state
  ∧ approvedMessages (state_after answered) = ["r1"].
Proof.
  intros response held answered.
  destruct (@hold_then_answer_round_trip _ demo_collaborators (demo_hash None)
              7%nat response initial_state eq_refl eq_refl eq_refl eq_refl)
    as (Hdelivered & Hback & _ & Happroved).
  split_and!; [exact Hdelivered | | exact Happroved].
  apply Hback. discriminate.
Defined.

(** X22 on the waiting service: the approval of "r1" reaches port 7 once, a
    second answer reaches nobody, and nothing is posted for "r1" while
    another request is held and answered. *)
Lemma answer_is_delivered_once_witness :
  let response := {| response_requestId := "r1"; response_data := true |} in
  let again := {| response_requestId := "r1"; response_data := false |} in
  let first := onMessage response waiting_state in
  let later := [@Answer demo_payloads again;
                @Incoming demo_payloads
                  (@UntypedSignatureMessage demo_payloads
                     (demo_envelope "r2" None) ("0x" +:+ hash64)) 8%nat;
                @Answer demo_payloads again] in
  messagePorts waiting_state !! "r1" = Some 7%nat
  ∧ deliveries (events first) = [(7%nat, response)]
  ∧ messagePorts (state_after first) !! "r1" = None
  ∧ deliveries (events (onMessage again (state_after first))) = []
  ∧ deliveries_for "r1"
      (events (@handleAll _ demo_collaborators later (state_after first))) = [].
Proof.
  intros response again first later.
  assert (response_requestId response ≠ "__proto__") as Hordinary by discriminate.
  destruct (@answer_is_delivered_once _ demo_collaborators
              waiting_state response later Hordinary)
    as (Hfound & _ & Hgone & Hagain & Hlater).
  assert (messagePorts waiting_state !! "r1" = Some 7%nat) as Hport
    by (vm_compute; reflexivity).
  assert (Forall (λ input, ¬ @requests demo_payloads "r1" input) later) as Hfresh
    by (repeat constructor; cbn; try tauto; discriminate).
  destruct (Hfound 7%nat Hport) as [Hdelivered _].
  destruct (Hlater Hfresh) as [Hrest _].
  split_and!;
    [exact Hport | exact Hdelivered | exact Hgone | exact (Hagain again eq_refl)
    | exact Hrest].
Defined.

(** X24 on the service that holds the request sent under "__proto__": three
    answers are posted to port 7, all three. *)
Lemma proto_port_is_never_released_witness :
  let yes := {| response_requestId := "__proto__"; response_data := true |} in
  let no := {| response_requestId := "__proto__"; response_data := false |} in
  let held := state_after (@processMessage _ demo_collaborators
                             demo_proto_hash 7%nat initial_state) in
  deliveries (events (@handleAll _ demo_collaborators
                        (map Answer [yes; no; yes]) held))
  = [(7%nat, yes); (7%nat, no); (7%nat, yes)].
Proof.
  intros yes no held.
  assert (messagePorts held !! "__proto__" = Some 7%nat) as Hport
    by (vm_compute; reflexivity).
  assert (Forall (λ answer, response_requestId answer = "__proto__")
            [yes; no; yes]) as Hids by (repeat constructor).
  destruct (@proto_port_is_never_released _ demo_collaborators [yes; no; yes]
              7%nat held Hport Hids) as [Hall _].
  exact Hall.
Defined.

Lemma approval_silences_later_requests_witness :
  let inputs := [@Incoming demo_payloads (demo_hash None) 7%nat;
                 @Answer demo_payloads
                   {| response_requestId := "r1"; response_data := true |}] in
  let s' := state_after (@handleAll _ demo_collaborators inputs initial_state) in
  @createPopup _ demo_collaborators (demo_hash None) s' = (false, s', []).
Proof.
  intros inputs.
  apply (@approval_silences_later_requests _ demo_collaborators inputs
           initial_state (demo_hash None) 7%nat).
  vm_compute. apply list_elem_of_singleton. reflexivity.
Defined.

Lemma rejection_is_not_remembered_witness :
  let response := {| response_requestId := "r1"; response_data := false |} in
  result (@createPopup _ demo_collaborators (demo_hash None)
            (state_after (onMessage response waiting_state)))
  = result (@createPopup _ demo_collaborators (demo_hash None) waiting_state).
Proof.
  intros response.
  apply (@rejection_is_not_remembered _ demo_collaborators response
           (demo_hash None) waiting_state eq_refl).
Defined.

Lemma deliveries_go_to_requesters_witness :
  let rejection := {| response_requestId := "r1"; response_data := false |} in
  let inputs := [@Incoming demo_payloads (demo_hash None) 7%nat;
                 @Answer demo_payloads rejection] in
  (7%nat, rejection)
    ∈ deliveries (events (@handleAll _ demo_collaborators inputs initial_state))
  ∧ Answer rejection ∈ inputs.
Proof.
  intros rejection inputs.
  assert ((7%nat, rejection)
            ∈ deliveries (events (@handleAll _ demo_collaborators inputs
                                    initial_state))) as Hin
    by (vm_compute; apply list_elem_of_singleton; reflexivity).
  split; [exact Hin|].
  apply (@deliveries_go_to_requesters _ demo_collaborators inputs initial_state
           7%nat rejection Hin).
  reflexivity.
Defined.

Lemma popup_fits_in_large_window_witness :
  let window := {| left := 100; top := 50; width := 1000; height := 800 |} in
  let p := getPopupPositions window 2 None in
  left window ≤ popup_left p
  ∧ popup_left p + popup_width p ≤ left window + width window
  ∧ top window ≤ popup_top p
  ∧ popup_top p + popup_height p ≤ top window + height window
  ∧ popup_top p - top window
    ≤ (top window + height window) - (popup_top p + popup_height p).
Proof.
  intros window.
  apply (popup_fits_in_large_window window 2 None); cbn; lia.
Defined.

Lemma popup_grows_upwards_witness :
  let window := {| left := 100; top := 50; width := 1000; height := 800 |} in
  popup_height (getPopupPositions window 5 None)
  = popup_height (getPopupPositions window 2 None) + 24 * 3
  ∧ popup_top (getPopupPositions window 5 None)
    ≤ popup_top (getPopupPositions window 2 None).
Proof.
  intros window.
  destruct (popup_grows_upwards window 2 3 None) as (Hheight & _ & _ & Htop & _);
    [lia|].
  split; [exact Hheight | exact Htop].
Defined.
